(** * Face-recognition kiosk: gate, identity matcher and session state machine

    A shallow embedding of the Python sources
      - [src/system/services.py]        (registration, encoding, authentication)
      - [src/system/stream_processor.py] (per-frame handlers of [StreamProcessor])
      - [app.py]                         (geometry helpers, authentication stream)
      - [test_app.py]                    (session state, command endpoints)
    and the properties of the specification checked against them.

    Conventions.  Python [int] is [Z]; Python/NumPy [float] values are
    idealised as real numbers [R] (no rounding, no NaN); a [dict] used as a
    map is a [gmap]; an exception is the [Raise] branch of [result];
    attribute mutation is explicit state passing. *)

From Stdlib Require Import ZArith Reals Lra Lia List String Bool.
From stdpp Require Import base option list strings gmap sorting.
Import ListNotations.

Open Scope string_scope.
Open Scope list_scope.

(** ** Exceptions and the error monad *)

Inductive exn : Type :=
| IndexError
| ValueError
| ZeroDivisionError
| TypeError
| AttributeError (attr : string)
| KeyError.

Inductive result (A : Type) : Type :=
| Ok (a : A)
| Raise (e : exn).
Arguments Ok {A} a.
Arguments Raise {A} e.

#[global] Instance result_ret : MRet result := fun _ a => Ok a.
#[global] Instance result_bind : MBind result := fun _ _ f m =>
  match m with
  | Ok a => f a
  | Raise e => Raise e
  end.

(** Code that mutates an object and may raise afterwards: the state reached
    is kept next to the outcome. *)
Definition M (S A : Type) : Type := S -> result A * S.

#[global] Instance M_ret {S} : MRet (M S) := fun _ a s => (Ok a, s).
#[global] Instance M_bind {S} : MBind (M S) := fun _ _ f m s =>
  match m s with
  | (Ok a, s') => f a s'
  | (Raise e, s') => (Raise e, s')
  end.

Definition get {S} : M S S := fun s => (Ok s, s).
Definition modify {S} (f : S -> S) : M S unit := fun s => (Ok tt, f s).
Definition raise {S A} (e : exn) : M S A := fun s => (Raise e, s).
Definition lift {S A} (r : result A) : M S A := fun s => (r, s).

(** ** Python built-ins *)

Module Py.

(** [l[i]] on a list. *)
Definition index {A} (l : list A) (i : nat) : result A :=
  match l !! i with
  | Some x => Ok x
  | None => Raise IndexError
  end.

(** The loop of [max(iterable, key=...)]: the running maximum is replaced
    only by a strictly greater key, so the first maximal item wins. *)
Fixpoint max_from {A} (key : A -> Z) (best : A) (l : list A) : A :=
  match l with
  | [] => best
  | x :: t => max_from key (if (key best <? key x)%Z then x else best) t
  end.

Definition max {A} (l : list A) (key : A -> Z) : result A :=
  match l with
  | [] => Raise ValueError
  | x :: t => Ok (max_from key x t)
  end.

(** [dict.get(key, default)]. *)
Definition dict_get {V} (d : gmap string V) (k : string) (dflt : V) : V :=
  default dflt (d !! k).

(** Truthiness of an optional string: [None] and the empty string are falsy. *)
Definition truthy (s : option string) : bool :=
  match s with
  | None => false
  | Some s => negb (String.eqb s EmptyString)
  end.

End Py.

(** ** NumPy and face_recognition (external collaborators) *)

Module Np.

Definition Rleb (x y : R) : bool := if Rle_dec x y then true else false.
Definition Rltb (x y : R) : bool := if Rlt_dec x y then true else false.

(** [a - b] on one-dimensional arrays of the same length. *)
Definition sub (a b : list R) : list R := zip_with Rminus a b.

Definition sum_sq (v : list R) : R := foldr (fun x acc => (x * x + acc)%R) 0%R v.

(** [np.linalg.norm(v)]: the 2-norm. *)
Definition linalg_norm (v : list R) : R := sqrt (sum_sq v).

(** The scan of [np.argmin]: index of the first occurrence of the minimum. *)
Fixpoint argmin_from (best_i : nat) (best : R) (i : nat) (l : list R) : nat :=
  match l with
  | [] => best_i
  | x :: t =>
      if Rltb x best then argmin_from i x (S i) t
      else argmin_from best_i best (S i) t
  end.

Definition argmin (l : list R) : result nat :=
  match l with
  | [] => Raise ValueError
  | x :: t => Ok (argmin_from 0 x 1 t)
  end.

End Np.

(** [face_recognition.face_distance(face_encodings, face_to_compare)]:
    [np.linalg.norm(face_encodings - face_to_compare, axis=1)], the empty
    array when there is no known encoding. *)
Definition face_distance (face_encodings : list (list R)) (face_to_compare : list R)
  : list R :=
  (fun e => Np.linalg_norm (Np.sub e face_to_compare)) <$> face_encodings.

(** ** Data model *)

(** A face location as [face_recognition] returns it: (top, right, bottom, left). *)
Definition Location : Type := Z * Z * Z * Z.

(** A box as the geometry helpers use it: (x, y, w, h). *)
Definition Box : Type := Z * Z * Z * Z.

(** One item of [FaceProcessor.detect_and_encode_faces]:
    [{"location": loc, "encoding": enc}]. *)
Record FaceData : Type := mkFaceData {
  location : Location;
  encoding : list R
}.

(** One item of the list [authenticate_face] returns: [{"name": .., "box": ..}]. *)
Record MatchResult : Type := mkMatchResult {
  name : string;
  box : Location
}.

(** The attributes of [AuthenticationService] that authentication reads. *)
Record AuthenticationService : Type := mkAuthenticationService {
  tolerance : R;
  known_encodings : list (list R);
  known_user_ids : list string;
  user_id_to_name_map : gmap string string
}.

(** ** services.py: AuthenticationService.authenticate_face *)

Definition Unknown : string := "Unknown".

(** The value of [name] when [authenticate_face] reaches its [return]. *)
Definition matched_name (self : AuthenticationService) (face_encoding : list R)
  : result string :=
  let name := Unknown in
  let face_distances := face_distance (known_encodings self) face_encoding in
  if (0 <? length face_distances)%nat then
    best_match_index ← Np.argmin face_distances;
    d ← Py.index face_distances best_match_index;
    if Np.Rleb d (tolerance self) then
      user_id ← Py.index (known_user_ids self) best_match_index;
      mret (Py.dict_get (user_id_to_name_map self) user_id Unknown)
    else mret name
  else mret name.

Definition authenticate_face (self : AuthenticationService) (face_data : FaceData)
  : result (list MatchResult) :=
  let face_encoding := encoding face_data in
  let box_location := location face_data in
  name ← matched_name self face_encoding;
  mret [ {| name := name; box := box_location |} ].

(** ** app.py / test_app.py: geometry helpers *)

Definition get_box_center (box : Box) : Z * Z :=
  let '(x, y, w, h) := box in
  ((x + w / 2)%Z, (y + h / 2)%Z).

Definition get_box_area (box : Box) : Z :=
  let '(_, _, w, h) := box in
  (w * h)%Z.

Definition get_face_properties (location : Location) : Box * Z :=
  let '(top, right_, bottom, left_) := location in
  let w := (right_ - left_)%Z in
  let h := (bottom - top)%Z in
  let area := (w * h)%Z in
  ((left_, top, w, h), area).

(** [calculate_face_metrics] reads the module constant [GUIDE_BOX_RECT]; it is
    an explicit argument here.  [face_area / get_box_area(..)] is a true
    division of two [int]s and raises on a zero divisor. *)
Definition calculate_face_metrics (GUIDE_BOX_RECT : Box) (face_box : Box) (face_area : Z)
  : result (R * R) :=
  let guide_center := get_box_center GUIDE_BOX_RECT in
  let face_center := get_box_center face_box in
  let distance :=
    Np.linalg_norm [IZR (guide_center.1 - face_center.1);
                    IZR (guide_center.2 - face_center.2)] in
  if (get_box_area GUIDE_BOX_RECT =? 0)%Z then Raise ZeroDivisionError
  else
    let size_ratio := (IZR face_area / IZR (get_box_area GUIDE_BOX_RECT))%R in
    Ok (distance, size_ratio).

(** The constants of app.py and test_app.py. *)
Definition FRAME_WIDTH : Z := 1280.
Definition FRAME_HEIGHT : Z := 720.
Definition GUIDE_BOX_WIDTH : Z := 350.
Definition GUIDE_BOX_HEIGHT : Z := 450.
Definition GUIDE_BOX_RECT : Box :=
  (((FRAME_WIDTH - GUIDE_BOX_WIDTH) / 2)%Z,
   ((FRAME_HEIGHT - GUIDE_BOX_HEIGHT) / 2)%Z,
   GUIDE_BOX_WIDTH,
   GUIDE_BOX_HEIGHT).
Definition POSITION_THRESHOLD : R := 50.
Definition SIZE_THRESHOLD : R := 0.5.

(** The gate both front ends test:
    [distance <= POSITION_THRESHOLD and size_ratio >= SIZE_THRESHOLD]. *)
Definition gate (position_threshold size_threshold distance size_ratio : R) : bool :=
  Np.Rleb distance position_threshold && Np.Rleb size_threshold size_ratio.

Definition MSG_CENTER : string := "顔を枠の中央に".
Definition MSG_CLOSER : string := "近づいてください".
Definition MSG_AUTHENTICATING : string := "認証中...".
Definition MSG_RESULT : string := "結果: ".
Definition MSG_FROZEN : string := "この顔で登録します".

(** The conditional expression that picks the feedback text:
    [MSG_CENTER if distance > POSITION_THRESHOLD else MSG_CLOSER]. *)
Definition feedback (position_threshold distance : R) : string :=
  if Np.Rltb position_threshold distance then MSG_CENTER else MSG_CLOSER.

(** ** Frames and drawing *)

Definition Color : Type := Z * Z * Z.

(** What is put on an image: a [cv2.rectangle]; a text drawn by one of the
    Japanese-text helpers ([FrameRenderer._draw_text], [draw_japanese_text])
    with the size of its font; a [cv2.putText] with its font face, scale
    and thickness. *)
Inductive Drawing : Type :=
| Rectangle (pt1 pt2 : Z * Z) (color : Color) (thickness : Z)
| Text (text : string) (org : Z * Z) (font_size : Z) (color : Color)
| PutText (text : string) (org : Z * Z) (fontFace : Z) (fontScale : R)
    (color : Color) (thickness : Z).

(** A frame is the camera's raw samples and the drawings made on top of them,
    oldest first. *)
Record Frame : Type := mkFrame {
  pixels : list Z;
  drawings : list Drawing
}.

Definition draw (frame : Frame) (d : Drawing) : Frame :=
  {| pixels := pixels frame; drawings := drawings frame ++ [d] |}.

Definition GREY : Color := (128, 128, 128)%Z.
Definition GREEN : Color := (0, 255, 0)%Z.
Definition RED : Color := (0, 0, 255)%Z.
Definition YELLOW : Color := (0, 255, 255)%Z.
Definition WHITE : Color := (255, 255, 255)%Z.

(** renderer.py: [FrameRenderer.draw_guide_box]. *)
Definition draw_guide_box (frame : Frame) (rect : Box) (color : Color) : Frame :=
  let '(x, y, w, h) := rect in
  draw frame (Rectangle (x, y) ((x + w)%Z, (y + h)%Z) color 3).

(** renderer.py: the size [FrameRenderer.__init__] loads its font at. *)
Definition RENDERER_FONT_SIZE : Z := 32.

(** renderer.py: [FrameRenderer.draw_face_box]. *)
Definition draw_face_box (frame : Frame) (location : Location) (message : string)
    (color : Color) : Frame :=
  let '(top, right_, bottom, left_) := location in
  let frame := draw frame (Rectangle (left_, top) (right_, bottom) color 3) in
  draw frame (Text message (left_, (top - 40)%Z) RENDERER_FONT_SIZE color).

(** The face annotation of app.py: [cv2.rectangle] on the (x, y, w, h) box,
    then [draw_japanese_text] above it, at font size 30. *)
Definition annotate (frame : Frame) (face_box : Box) (message : string)
    (color : Color) : Frame :=
  let '(left_, top, w, h) := face_box in
  let frame := draw frame (Rectangle (left_, top) ((left_ + w)%Z, (top + h)%Z) color 3) in
  draw frame (Text message (left_, (top - 40)%Z) 30 color).

(** ** Session state (test_app.py: class AppState) *)

Inductive Mode : Type :=
| AUTHENTICATING
| REGISTRATION_SEARCHING
| REGISTRATION_FROZEN.

#[global] Instance Mode_eq_dec : EqDecision Mode.
Proof. solve_decision. Defined.

Record AppState : Type := mkAppState {
  mode : Mode;
  captured_frame : option Frame;
  last_auth_result : gmap string string
}.

(** [AppState.__init__]. *)
Definition AppState_init : AppState :=
  {| mode := AUTHENTICATING; captured_frame := None; last_auth_result := ∅ |}.

Definition set_mode (m : Mode) (s : AppState) : AppState :=
  {| mode := m;
     captured_frame := captured_frame s;
     last_auth_result := last_auth_result s |}.

Definition set_captured_frame (f : option Frame) (s : AppState) : AppState :=
  {| mode := mode s;
     captured_frame := f;
     last_auth_result := last_auth_result s |}.

(** The largest face: [max(detected_faces, key=lambda f: get_face_properties(f["location"])[1])]. *)
Definition face_area_key (f : FaceData) : Z := (get_face_properties (location f)).2.

Definition largest (detected_faces : list FaceData) : result FaceData :=
  Py.max detected_faces face_area_key.

(** ** stream_processor.py: class StreamProcessor *)

(** The entries of the [config] dictionary.  Its two callables,
    ["get_face_properties"] and ["calculate_face_metrics"], are the helpers
    above, the latter closed over the configured guide rectangle. *)
Record Config : Type := mkConfig {
  cfg_GUIDE_BOX_RECT : Box;
  cfg_POSITION_THRESHOLD : R;
  cfg_SIZE_THRESHOLD : R
}.

Module StreamProcessor.
Section WithCollaborators.

(** [face_processor.detect_and_encode_faces], the detection collaborator. *)
Variable detect_and_encode_faces : Frame -> list FaceData.
Variable auth_service : AuthenticationService.
Variable config : Config.

Definition _handle_authentication_frame (frame : Frame) : result Frame :=
  let detected_faces := detect_and_encode_faces frame in
  let frame := draw_guide_box frame (cfg_GUIDE_BOX_RECT config) GREY in
  match detected_faces with
  | [] => mret frame
  | _ =>
      largest_face ← largest detected_faces;
      let '(face_box_coords, face_area) := get_face_properties (location largest_face) in
      '(distance, size_ratio) ←
        calculate_face_metrics (cfg_GUIDE_BOX_RECT config) face_box_coords face_area;
      if gate (cfg_POSITION_THRESHOLD config) (cfg_SIZE_THRESHOLD config)
              distance size_ratio
      then
        auth_result ← authenticate_face auth_service largest_face;
        first ← Py.index auth_result 0;
        let name := name first in
        let color := if String.eqb name Unknown then RED else GREEN in
        mret (draw_face_box frame (location largest_face) (MSG_RESULT +:+ name) color)
      else
        let color := YELLOW in
        let message := feedback (cfg_POSITION_THRESHOLD config) distance in
        mret (draw_face_box frame (location largest_face) message color)
  end.

Definition _handle_registration_frame (frame : Frame) : M AppState Frame :=
  let detected_faces := detect_and_encode_faces frame in
  match detected_faces with
  | [] =>
      _ ← modify (set_captured_frame None);
      mret frame
  | _ =>
      largest_face ← lift (largest detected_faces);
      let '(face_box, face_area) := get_face_properties (location largest_face) in
      '(distance, size_ratio) ←
        lift (calculate_face_metrics (cfg_GUIDE_BOX_RECT config) face_box face_area);
      app_state ← get;
      _ ← (if bool_decide (mode app_state = REGISTRATION_SEARCHING)
              && gate (cfg_POSITION_THRESHOLD config) (cfg_SIZE_THRESHOLD config)
                      distance size_ratio
           then
             _ ← modify (set_mode REGISTRATION_FROZEN);
             modify (set_captured_frame (Some frame))
           else mret tt);
      app_state ← get;
      let '(color, message) :=
        if bool_decide (mode app_state = REGISTRATION_FROZEN)
        then (GREEN, MSG_FROZEN)
        else (YELLOW, feedback (cfg_POSITION_THRESHOLD config) distance) in
      mret (draw_face_box frame (location largest_face) message color)
  end.

(** The frame one pass of [generate] works on: the captured still while
    frozen, else what [camera.get_frame()] returned. *)
Definition source_frame (app_state : AppState) (camera_frame : option Frame)
  : option Frame :=
  match mode app_state, captured_frame app_state with
  | REGISTRATION_FROZEN, Some captured => Some captured
  | _, _ => camera_frame
  end.

(** The mode dispatch inside [generate]. *)
Definition handle_frame (frame : Frame) : M AppState Frame :=
  app_state ← get;
  match mode app_state with
  | AUTHENTICATING => lift (_handle_authentication_frame frame)
  | REGISTRATION_SEARCHING | REGISTRATION_FROZEN => _handle_registration_frame frame
  end.

(** One pass of the [while True] loop of [generate]; [None] when the pass
    ends in [continue] without a [yield]. *)
Definition generate_pass (camera_frame : option Frame) : M AppState (option Frame) :=
  app_state ← get;
  match source_frame app_state camera_frame with
  | None => mret None
  | Some frame =>
      frame ← handle_frame frame;
      mret (Some frame)
  end.

End WithCollaborators.
End StreamProcessor.

(** ** app.py: generate_frames (authentication only) *)

Module App.
Section WithCollaborators.

Variable detect_and_encode_faces : Frame -> list FaceData.
Variable auth_service : AuthenticationService.

(** The state of the generator is the stream of frames yielded so far. *)
Definition yield (frame : Frame) : M (list Frame) unit :=
  modify (fun out => out ++ [frame]).

(** [while time.time() < end_time: yield result_frame], for the number of
    turns the three seconds last. *)
Fixpoint hold_result (turns : nat) (result_frame : Frame) : M (list Frame) unit :=
  match turns with
  | O => mret tt
  | S n => _ ← yield result_frame; hold_result n result_frame
  end.

(** One pass of the [while True] loop of [generate_frames]. *)
Definition generate_frames_pass (turns : nat) (camera_frame : option Frame)
  : M (list Frame) unit :=
  match camera_frame with
  | None => mret tt
  | Some frame =>
      let detected_faces := detect_and_encode_faces frame in
      let default_color := GREY in
      let '(gx, gy, gw, gh) := GUIDE_BOX_RECT in
      let frame := draw frame (Rectangle (gx, gy) ((gx + gw)%Z, (gy + gh)%Z) default_color 3) in
      match detected_faces with
      | [] => yield frame
      | _ =>
          largest_face ← lift (largest detected_faces);
          let '(face_box_coords, face_area) := get_face_properties (location largest_face) in
          '(distance, size_ratio) ←
            lift (calculate_face_metrics GUIDE_BOX_RECT face_box_coords face_area);
          if gate POSITION_THRESHOLD SIZE_THRESHOLD distance size_ratio then
            let processing_frame := annotate frame face_box_coords MSG_AUTHENTICATING WHITE in
            _ ← yield processing_frame;
            auth_result ← lift (authenticate_face auth_service largest_face);
            first ← lift (Py.index auth_result 0);
            let name := name first in
            let result_color := if String.eqb name Unknown then RED else GREEN in
            let result_frame := annotate frame face_box_coords (MSG_RESULT +:+ name) result_color in
            hold_result turns result_frame
          else
            let feedback_color := YELLOW in
            let feedback_message := feedback POSITION_THRESHOLD distance in
            let frame := annotate frame face_box_coords feedback_message feedback_color in
            yield frame
      end
  end.

End WithCollaborators.
End App.

(** ** data_manager.py and services.py: enrolment and gallery build *)

(** One entry of metadata.json; [user_name] is its ["name"] key. *)
Record UserRecord : Type := mkUserRecord {
  user_id : string;
  user_name : string;
  registered_at : string
}.

(** What [DataManager] keeps on disk: the metadata file, the image files of
    each user directory (numbered NN.jpg) and, once built, the encodings
    file with its two parallel lists.  An image file is identified with the
    frame [cv2.imwrite] made it of; what [cv2.imread] gets back from it is
    another matter (the .jpg round trip is lossy), see [EncodingService]. *)
Record Disk : Type := mkDisk {
  metadata_json : list UserRecord;
  dataset : gmap string (gmap nat Frame);
  encodings_pickle : option (list (list R) * list string)
}.

Module DataManager.

Definition read_metadata : M Disk (list UserRecord) :=
  d ← get; mret (metadata_json d).

Definition write_metadata (data : list UserRecord) : M Disk unit :=
  modify (fun d => {| metadata_json := data;
                      dataset := dataset d;
                      encodings_pickle := encodings_pickle d |}).

(** [cv2.imwrite] of image [i] to file [i+1] of the user's directory. *)
Definition write_images (dir : gmap nat Frame) (images : list Frame) : gmap nat Frame :=
  foldl (fun dir '(i, img) => <[S i := img]> dir) dir (imap pair images).

Definition save_images_for_user (user_id : string) (images : list Frame) : M Disk unit :=
  modify (fun d =>
    let user_dir := default ∅ (dataset d !! user_id) in
    {| metadata_json := metadata_json d;
       dataset := <[user_id := write_images user_dir images]> (dataset d);
       encodings_pickle := encodings_pickle d |}).

Definition save_encodings (encodings : list (list R)) (user_ids : list string)
  : M Disk unit :=
  modify (fun d => {| metadata_json := metadata_json d;
                      dataset := dataset d;
                      encodings_pickle := Some (encodings, user_ids) |}).

End DataManager.

Module RegistrationService.

(** [register_new_user(name, images)]; [fresh_id] is what [uuid.uuid4()]
    returns and [now] the time stamp of the call. *)
Definition register_new_user (fresh_id now : string) (name : string)
    (images : list Frame) : M Disk string :=
  if String.eqb name EmptyString || bool_decide (length images = 0%nat) then raise ValueError
  else
    let user_id := fresh_id in
    metadata ← DataManager.read_metadata;
    let new_user_data :=
      {| user_id := user_id; user_name := name; registered_at := now |} in
    let metadata := metadata ++ [new_user_data] in
    _ ← DataManager.write_metadata metadata;
    _ ← DataManager.save_images_for_user user_id images;
    mret user_id.

End RegistrationService.

Module EncodingService.
Section WithCollaborators.

(** [cv2.imread] on the .jpg file written of a frame: the image the lossy
    round trip gives back, [None] when the file cannot be read. *)
Variable imread : Frame -> option Frame.

(** [face_processor.extract_encodings]. *)
Variable extract_encodings : Frame -> list (list R).

(** The inner [for image_path in image_paths] loop: a file that cannot be
    read is skipped, and only an image with exactly one face contributes. *)
Definition encode_images (user_id : string) (image_paths : list Frame)
    (acc : list (list R) * list string) : list (list R) * list string :=
  foldl (fun acc image_path =>
           match imread image_path with
           | None => acc
           | Some image =>
               match extract_encodings image with
               | [enc] => (acc.1 ++ [enc], acc.2 ++ [user_id])
               | _ => acc
               end
           end) acc image_paths.

(** The outer [for user_data in metadata] loop; the image paths of a user
    are the files of the user's directory
    ([get_image_paths_for_user]), in directory order. *)
Fixpoint encode_users (d : Disk) (metadata : list UserRecord)
    (acc : list (list R) * list string) : list (list R) * list string :=
  match metadata with
  | [] => acc
  | user_data :: rest =>
      let image_paths :=
        (map_to_list (default ∅ (dataset d !! user_id user_data))).*2 in
      encode_users d rest (encode_images (user_id user_data) image_paths acc)
  end.

Definition build_encodings_from_dataset : M Disk unit :=
  metadata ← DataManager.read_metadata;
  match metadata with
  | [] => mret tt
  | _ =>
      d ← get;
      let '(all_known_encodings, all_known_user_ids) := encode_users d metadata ([], []) in
      match all_known_encodings with
      | [] => mret tt
      | _ => DataManager.save_encodings all_known_encodings all_known_user_ids
      end
  end.

End WithCollaborators.
End EncodingService.

(** [AuthenticationService._load_knowledge]: the gallery
    ([data_manager.load_encodings()]) and the name map are taken from disk;
    when there is no encodings file the lists stay as they are. *)
Definition _load_knowledge (d : Disk) (self : AuthenticationService)
  : AuthenticationService :=
  let '(encodings, user_ids) :=
    match encodings_pickle d with
    | Some (encodings, user_ids) => (encodings, user_ids)
    | None => (known_encodings self, known_user_ids self)
    end in
  {| tolerance := tolerance self;
     known_encodings := encodings;
     known_user_ids := user_ids;
     user_id_to_name_map :=
       foldl (fun m user => <[user_id user := user_name user]> m) ∅ (metadata_json d) |}.

(** The names an [AuthenticationService] instance answers to: the attributes
    set in [__init__] and the methods of the class. *)
Definition AuthenticationService_attributes : list string :=
  ["data_manager"; "face_processor"; "tolerance"; "logger";
   "known_encodings"; "known_user_ids"; "user_id_to_name_map";
   "__init__"; "_load_knowledge"; "authenticate_face"; "authenticate_frame"].

(** ** test_app.py: the kiosk with registration *)

Module TestApp.

Inductive Json : Type :=
| JString (s : string)
| JBool (b : bool).

(** A Flask response: the [jsonify] body and the HTTP status code. *)
Record Response : Type := mkResponse {
  body : list (string * Json);
  status_code : Z
}.

Definition jsonify (body : list (string * Json)) : Response :=
  {| body := body; status_code := 200 |}.

Definition ok_response : Response := jsonify [("status", JString "ok")].

Definition mode_name (m : Mode) : string :=
  match m with
  | AUTHENTICATING => "AUTHENTICATING"
  | REGISTRATION_SEARCHING => "REGISTRATION_SEARCHING"
  | REGISTRATION_FROZEN => "REGISTRATION_FROZEN"
  end.

(** *** Command endpoints on the global [app_state] *)

Definition start_registration : M AppState Response :=
  _ ← modify (set_mode REGISTRATION_SEARCHING);
  mret ok_response.

Definition recapture : M AppState Response :=
  _ ← modify (set_mode REGISTRATION_SEARCHING);
  _ ← modify (set_captured_frame None);
  mret ok_response.

Definition cancel_registration : M AppState Response :=
  _ ← modify (set_mode AUTHENTICATING);
  _ ← modify (set_captured_frame None);
  mret ok_response.

Definition status : M AppState Response :=
  app_state ← get;
  mret (jsonify [("mode", JString (mode_name (mode app_state)));
                 ("isFrameCaptured",
                  JBool (bool_decide (is_Some (captured_frame app_state))))]).

(** *** The globals of the module *)

Record Kiosk : Type := mkKiosk {
  app_state : AppState;
  disk : Disk;
  auth_service : AuthenticationService
}.

Definition on_app_state {A} (m : M AppState A) : M Kiosk A := fun k =>
  let '(r, s) := m (app_state k) in
  (r, {| app_state := s; disk := disk k; auth_service := auth_service k |}).

Definition on_disk {A} (m : M Disk A) : M Kiosk A := fun k =>
  let '(r, d) := m (disk k) in
  (r, {| app_state := app_state k; disk := d; auth_service := auth_service k |}).

(** [auth_service.<attr>()]: a call with no argument.  Of the names the
    instance answers to only [_load_knowledge] takes no argument; a name
    it does not have raises [AttributeError]. *)
Definition call_auth_service (attr : string) : M Kiosk unit :=
  if bool_decide (attr ∈ AuthenticationService_attributes) then
    if String.eqb attr "_load_knowledge" then
      modify (fun k => {| app_state := app_state k;
                          disk := disk k;
                          auth_service := _load_knowledge (disk k) (auth_service k) |})
    else raise TypeError
  else raise (AttributeError attr).

Definition error_response : Response :=
  {| body := [("status", JString "error");
              ("message", JString "名前またはキャプチャされたフレームがありません。")];
     status_code := 400 |}.

Definition registered_message (user_name : string) : string :=
  user_name +:+ "さんを登録しました。".

Section WithCollaborators.

Variable detect_and_encode_faces : Frame -> list FaceData.
Variable imread : Frame -> option Frame.
Variable extract_encodings : Frame -> list (list R).

(** [submit_registration]; [form_name] is [request.form.get("name")]. *)
Definition submit_registration (fresh_id now : string) (form_name : option string)
  : M Kiosk Response :=
  let user_name := form_name in
  k ← get;
  match user_name, captured_frame (app_state k) with
  | Some user_name, Some frame =>
      if String.eqb user_name EmptyString then mret error_response
      else
        _ ← on_disk (RegistrationService.register_new_user
                       fresh_id now user_name [frame]);
        _ ← on_disk (EncodingService.build_encodings_from_dataset
                       imread extract_encodings);
        _ ← call_auth_service "reload_knowledge";
        _ ← on_app_state cancel_registration;
        mret (jsonify [("status", JString "ok");
                       ("message", JString (registered_message user_name))])
  | _, _ => mret error_response
  end.

(** [handle_registration_frame]: the drawing at its end calls
    [draw_japanese_text] with four of its six positional arguments. *)
Definition handle_registration_frame (frame : Frame) : M AppState Frame :=
  let detected_faces := detect_and_encode_faces frame in
  match detected_faces with
  | [] =>
      _ ← modify (set_captured_frame None);
      mret frame
  | _ =>
      largest_face ← lift (largest detected_faces);
      let '(face_box, face_area) := get_face_properties (location largest_face) in
      '(distance, size_ratio) ←
        lift (calculate_face_metrics GUIDE_BOX_RECT face_box face_area);
      app_state ← get;
      _ ← (if bool_decide (mode app_state = REGISTRATION_SEARCHING)
              && gate POSITION_THRESHOLD SIZE_THRESHOLD distance size_ratio
           then
             _ ← modify (set_mode REGISTRATION_FROZEN);
             modify (set_captured_frame (Some frame))
           else mret tt);
      raise TypeError
  end.

(** One pass of the [while True] loop of [generate_frames].  In
    authentication mode [handle_authentication_frame(frame)] only creates
    a generator that nobody iterates, so the frame goes out untouched. *)
Definition generate_frames_pass (camera_frame : option Frame)
  : M AppState (option Frame) :=
  app_state ← get;
  match StreamProcessor.source_frame app_state camera_frame with
  | None => mret None
  | Some frame =>
      frame ← match mode app_state with
              | AUTHENTICATING => mret frame
              | REGISTRATION_SEARCHING | REGISTRATION_FROZEN =>
                  handle_registration_frame frame
              end;
      mret (Some frame)
  end.

End WithCollaborators.

End TestApp.

(** ** Reachable session states *)

(** The session states the kiosk can be in when commands and frame passes
    run one after the other, starting from [AppState()]. *)
Inductive reachable : AppState -> Prop :=
| reach_init : reachable AppState_init
| reach_start s : reachable s -> reachable (TestApp.start_registration s).2
| reach_recapture s : reachable s -> reachable (TestApp.recapture s).2
| reach_cancel s : reachable s -> reachable (TestApp.cancel_registration s).2
| reach_status s : reachable s -> reachable (TestApp.status s).2
| reach_submit imread extract fresh_id now form_name k :
    reachable (TestApp.app_state k) ->
    reachable (TestApp.app_state
                 (TestApp.submit_registration imread extract fresh_id now form_name k).2)
| reach_stream detect auth config camera_frame s :
    reachable s ->
    reachable (StreamProcessor.generate_pass detect auth config camera_frame s).2
| reach_frames detect camera_frame s :
    reachable s ->
    reachable (TestApp.generate_frames_pass detect camera_frame s).2.

(** ** The gate signals *)

(** The two values the code gates on, for a face at [loc] against a guide
    rectangle: what [calculate_face_metrics] returns on the box and area of
    [get_face_properties] (see [calculate_face_metrics_signals]).  The
    distance is taken between the centres [get_box_center] computes, whose
    coordinates [x + w // 2] and [y + h // 2] are rounded down to whole
    pixels. *)
Definition centerDistance (guide : Box) (loc : Location) : R :=
  let gc := get_box_center guide in
  let fc := get_box_center (get_face_properties loc).1 in
  sqrt (IZR (gc.1 - fc.1) * IZR (gc.1 - fc.1) + IZR (gc.2 - fc.2) * IZR (gc.2 - fc.2)).

Definition sizeRatio (guide : Box) (loc : Location) : R :=
  (IZR (get_face_properties loc).2 / IZR (get_box_area guide))%R.

(** The centre distance in the words of the specification, to compare the
    code's with: the Euclidean distance between the face box's centre and
    the guide region's centre, in pixel units.  The centre of a box
    (x, y, w, h) is the point (x + w/2, y + h/2). *)
Definition box_centre (box : Box) : R * R :=
  let '(x, y, w, h) := box in
  ((IZR x + IZR w / 2)%R, (IZR y + IZR h / 2)%R).

Definition spec_centerDistance (guide : Box) (loc : Location) : R :=
  let gc := box_centre guide in
  let fc := box_centre (get_face_properties loc).1 in
  sqrt ((gc.1 - fc.1) * (gc.1 - fc.1) + (gc.2 - fc.2) * (gc.2 - fc.2)).

(** A box whose width and height are even: its centre falls on a pixel. *)
Definition even_sized (box : Box) : bool :=
  let '(_, _, w, h) := box in
  Z.even w && Z.even h.

(** [d] is the least value of [l] and [i] the first index that holds it. *)
Definition first_minimum (l : list R) (i : nat) (d : R) : Prop :=
  l !! i = Some d /\
  (forall j x, l !! j = Some x -> (d <= x)%R) /\
  (forall j x, (j < i)%nat -> l !! j = Some x -> (d < x)%R).

(** ** Sample data *)

Module Sample.

(** A raw camera frame and a second one with other content. *)
Definition frame : Frame := {| pixels := [12; 40; 7]%Z; drawings := [] |}.
Definition still : Frame := {| pixels := [3; 3; 9]%Z; drawings := [] |}.

(** The configuration with the constants of app.py. *)
Definition config : Config :=
  {| cfg_GUIDE_BOX_RECT := GUIDE_BOX_RECT;
     cfg_POSITION_THRESHOLD := POSITION_THRESHOLD;
     cfg_SIZE_THRESHOLD := SIZE_THRESHOLD |}.

(** A gallery of one enrolled sample, with the tolerance of app.py. *)
Definition service : AuthenticationService :=
  {| tolerance := 0.55;
     known_encodings := [[0; 0]%R];
     known_user_ids := ["u1"];
     user_id_to_name_map := {["u1" := "Alice"]} |}.

(** A face 300 x 300 whose centre is the centre of the guide rectangle. *)
Definition face : FaceData :=
  {| location := (210, 790, 510, 490)%Z; encoding := [0; 0]%R |}.

Definition no_face (_ : Frame) : list FaceData := [].
Definition one_face (_ : Frame) : list FaceData := [face].

(** The faces of the gate scenario of the specification, against the guide
    rectangle (465, 135, 350, 450): centre 10 px off with 0.6 of the guide's
    area, centre 80 px off, and centre 10 px off with 0.3 of the area. *)
Definition face_near : Location := (203, 800, 518, 500)%Z.
Definition face_off_centre : Location := (203, 870, 518, 570)%Z.
Definition face_small : Location := (248, 755, 473, 545)%Z.

(** The matcher scenario: one enrolled sample at the origin of a
    one-dimensional embedding space, and a probe at a given distance. *)
Definition gallery_of_one : AuthenticationService :=
  {| tolerance := 0.55;
     known_encodings := [[0]%R];
     known_user_ids := ["u1"];
     user_id_to_name_map := {["u1" := "Alice"]} |}.
Definition probe_at (x : R) : FaceData :=
  {| location := (210, 790, 510, 490)%Z; encoding := [x] |}.

(** A gallery whose list of user ids lost its entry. *)
Definition misaligned : AuthenticationService :=
  {| tolerance := 0.55;
     known_encodings := [[0]%R];
     known_user_ids := [];
     user_id_to_name_map := {["u1" := "Alice"]} |}.

(** Session states. *)
Definition searching : AppState :=
  {| mode := REGISTRATION_SEARCHING; captured_frame := None; last_auth_result := ∅ |}.
Definition frozen : AppState :=
  {| mode := REGISTRATION_FROZEN; captured_frame := Some still; last_auth_result := ∅ |}.
Definition stale : AppState :=
  {| mode := AUTHENTICATING; captured_frame := Some still; last_auth_result := ∅ |}.

Definition empty_disk : Disk :=
  {| metadata_json := []; dataset := ∅; encodings_pickle := None |}.

(** The kiosk with a captured still, waiting for a name. *)
Definition kiosk : TestApp.Kiosk :=
  {| TestApp.app_state := frozen;
     TestApp.disk := empty_disk;
     TestApp.auth_service := service |}.

(** An encoder that finds one face in every image. *)
Definition one_encoding (_ : Frame) : list (list R) := [[0; 0]%R].

(** A lossy image file format: every sample value comes back rounded down
    to an even value. *)
Definition imread (file : Frame) : option Frame :=
  Some {| pixels := (fun v => (2 * (v / 2))%Z) <$> pixels file;
          drawings := drawings file |}.

End Sample.

(** ** services.py: AuthenticationService.authenticate_frame and __init__ *)

(** One turn of the [for face_data in detected_faces] loop of
    [authenticate_frame]: the value of [name] after it.  [name] is
    assigned before the loop and only on a match within the tolerance. *)
Definition next_name (self : AuthenticationService) (name : string)
    (face_encoding : list R) : result string :=
  let face_distances := face_distance (known_encodings self) face_encoding in
  if (0 <? length face_distances)%nat then
    best_match_index ← Np.argmin face_distances;
    min_distance ← Py.index face_distances best_match_index;
    if Np.Rleb min_distance (tolerance self) then
      user_id ← Py.index (known_user_ids self) best_match_index;
      mret (Py.dict_get (user_id_to_name_map self) user_id Unknown)
    else mret name
  else mret name.

(** The loop itself, with the two variables it updates. *)
Fixpoint recognize (self : AuthenticationService) (name : string)
    (recognized_faces : list MatchResult) (detected_faces : list FaceData)
  : result (list MatchResult) :=
  match detected_faces with
  | [] => mret recognized_faces
  | face_data :: rest =>
      let box_location := location face_data in
      name ← next_name self name (encoding face_data);
      recognize self name
        (recognized_faces ++ [ {| name := name; box := box_location |} ]) rest
  end.

(** The standard library's [logging], as far as a caller can see it.  The
    loggers of the services come from [setup_logger] of
    src/utils/logger.py, which is not embedded here: they are taken to be
    [logging.Logger]s, and whether they are enabled for INFO is a
    parameter. *)
Module logging.

(** The attributes every [LogRecord] has. *)
Definition LogRecord_attributes : list string :=
  ["name"; "msg"; "args"; "levelname"; "levelno"; "pathname"; "filename";
   "module"; "exc_info"; "exc_text"; "stack_info"; "lineno"; "funcName";
   "created"; "msecs"; "relativeCreated"; "thread"; "threadName";
   "processName"; "process"].

(** [Logger.makeRecord] refuses a key of [extra] that is ["message"],
    ["asctime"] or an attribute of the record. *)
Definition overwrites (key : string) : bool :=
  bool_decide (key ∈ ["message"; "asctime"] ++ LogRecord_attributes).

(** [logger.info(msg, extra=extra)], by the keys of [extra]: nothing
    happens when the logger is not enabled for INFO; otherwise the record
    is made first, which raises [KeyError] on a refused key. *)
Definition info (isEnabledFor_INFO : bool) (extra : list string) : result unit :=
  if isEnabledFor_INFO then
    if existsb overwrites extra then Raise KeyError else Ok tt
  else Ok tt.

End logging.

(** [authenticate_frame]; [info_enabled] tells whether [self.logger] is
    enabled for INFO.  The log calls of the other methods pass no [extra]
    or keys that [logging] accepts, and are left out of their models; the
    one that closes this method passes the key ["name"]. *)
Definition authenticate_frame (info_enabled : bool)
    (detect_and_encode_faces : Frame -> list FaceData)
    (self : AuthenticationService) (frame : Frame) : result (list MatchResult) :=
  match known_encodings self with
  | [] => mret []
  | _ =>
      let detected_faces := detect_and_encode_faces frame in
      recognized_faces ← recognize self Unknown [] detected_faces;
      _ ← logging.info info_enabled ["name"];
      mret recognized_faces
  end.

(** [AuthenticationService.__init__]: empty gallery, then [_load_knowledge]. *)
Definition AuthenticationService_init (d : Disk) (tolerance : R)
  : AuthenticationService :=
  _load_knowledge d
    {| tolerance := tolerance;
       known_encodings := [];
       known_user_ids := [];
       user_id_to_name_map := ∅ |}.

(** ** test_run_authenticate.py: draw_results and the body of the batch loop *)





(** ** Shapes used in the statements *)

(** The name the face at position [k] inherits when it is not matched. *)
Definition inherited_name (name0 : string) (results : list MatchResult) (k : nat)
  : string :=
  match k with
  | O => name0
  | S k' => default name0 (name <$> results !! k')
  end.

(** The session states a registration handler can leave behind when it
    ran on [frame] in state [s]: untouched, capture cleared, or frozen on
    [frame] out of REGISTRATION_SEARCHING. *)
Definition handler_outcome (s : AppState) (frame : Frame) (s' : AppState) : Prop :=
  s' = s \/
  s' = set_captured_frame None s \/
  (mode s = REGISTRATION_SEARCHING /\
   s' = set_captured_frame (Some frame) (set_mode REGISTRATION_FROZEN s)).

(** The session states a whole pass of a frame loop can leave behind. *)
Definition pass_outcome (s s' : AppState) : Prop :=
  s' = s \/ exists frame, handler_outcome s frame s'.

(** ** run_camera_test.py: cleanup_old_frames *)

(** [s.endswith(suffix)]. *)
Definition endswith (s suffix : string) : bool :=
  String.prefix (String.rev suffix) (String.rev s).

(** An entry of the frames directory: its name and what
    [os.path.getmtime] gives for it (on an integer scale). *)
Record File : Type := mkFile {
  file_name : string;
  mtime : Z
}.

(** [f.endswith((".jpg", ".jpeg"))]. *)
Definition is_jpeg (f : File) : bool :=
  endswith (file_name f) ".jpg" || endswith (file_name f) ".jpeg".

(** [sorted(files, key=os.path.getmtime)]: the sort is stable, files of the
    same age keep their listing order. *)
Fixpoint insert_by_mtime (f : File) (sorted : list File) : list File :=
  match sorted with
  | [] => [f]
  | g :: rest =>
      if (mtime f <=? mtime g)%Z then f :: g :: rest
      else g :: insert_by_mtime f rest
  end.

Definition sorted_by_mtime (files : list File) : list File :=
  foldr insert_by_mtime [] files.

(** [os.remove] of the entry named like [f]. *)
Definition remove_file (directory : list File) (f : File) : list File :=
  filter (fun g => file_name g <> file_name f) directory.

(** [cleanup_old_frames(directory, max_frames)] on the listing of an
    existing directory whose files can be removed; the result is the
    listing afterwards. *)
Definition cleanup_old_frames (directory : list File) (max_frames : Z) : list File :=
  let files := sorted_by_mtime (filter (fun f => is_jpeg f = true) directory) in
  if (max_frames <? Z.of_nat (length files))%Z then
    let files_to_delete :=
      take (Z.to_nat (Z.of_nat (length files) - max_frames)) files in
    foldl remove_file directory files_to_delete
  else directory.

(** [MAX_FRAMES_TO_KEEP]. *)
Definition MAX_FRAMES_TO_KEEP : Z := 100.

(** One file is no newer than another. *)
Definition older (f g : File) : Prop := (mtime f <= mtime g)%Z.

(** ** More sample data *)

Module Fixture.

(** A disk with one enrolled user and no encodings file yet. *)
Definition disk : Disk :=
  {| metadata_json :=
       [ {| user_id := "u1"; user_name := "Alice";
            registered_at := "2025-01-01T00:00:00+00:00" |} ];
     dataset := ∅;
     encodings_pickle := None |}.

(** A configuration whose guide rectangle has no width. *)
Definition flat_config : Config :=
  {| cfg_GUIDE_BOX_RECT := (0, 0, 0, 10)%Z;
     cfg_POSITION_THRESHOLD := POSITION_THRESHOLD;
     cfg_SIZE_THRESHOLD := SIZE_THRESHOLD |}.

(** A face 301 x 300 at the height of the guide rectangle, its centre half
    a pixel more than 50 px to the right of the guide's. *)
Definition odd_face : FaceData :=
  {| location := (210, 841, 510, 540)%Z; encoding := [0]%R |}.
Definition one_odd_face (_ : Frame) : list FaceData := [odd_face].

(** A frames directory as [os.listdir] may list it. *)
Definition newest : File := {| file_name := "frame_3.jpg"; mtime := 30 |}.
Definition notes : File := {| file_name := "notes.txt"; mtime := 5 |}.
Definition oldest : File := {| file_name := "frame_1.jpg"; mtime := 10 |}.
Definition middle : File := {| file_name := "frame_2.jpeg"; mtime := 20 |}.
Definition directory : list File := [newest; notes; oldest; middle].

End Fixture.

(** * Properties *)

(** ** Comparisons *)

Lemma Rleb_true x y : Np.Rleb x y = true <-> (x <= y)%R.
Proof. unfold Np.Rleb. destruct (Rle_dec x y); split; intros; try done. Qed.

Lemma Rleb_false x y : Np.Rleb x y = false <-> (y < x)%R.
Proof.
  unfold Np.Rleb. destruct (Rle_dec x y); split; intros; try done; lra.
Qed.

Lemma Rltb_true x y : Np.Rltb x y = true <-> (x < y)%R.
Proof. unfold Np.Rltb. destruct (Rlt_dec x y); split; intros; try done. Qed.

Lemma Rltb_false x y : Np.Rltb x y = false <-> (y <= x)%R.
Proof.
  unfold Np.Rltb. destruct (Rlt_dec x y); split; intros; try done; lra.
Qed.

Lemma gate_true pT sT d r :
  gate pT sT d r = true <-> (d <= pT)%R /\ (r >= sT)%R.
Proof.
  unfold gate. rewrite andb_true_iff, !Rleb_true. split; intros [? ?]; split; lra.
Qed.

Lemma gate_false pT sT d r :
  gate pT sT d r = false <-> (d > pT)%R \/ (r < sT)%R.
Proof.
  unfold gate. rewrite andb_false_iff, !Rleb_false. split; intros [?|?]; lra.
Qed.

(** ** The scans: [np.argmin] and [max] *)

Lemma argmin_from_spec (l : list R) : forall best_i best i,
  (Np.argmin_from best_i best i l = best_i /\ forall j x, l !! j = Some x -> (best <= x)%R)
  \/ exists k d,
       Np.argmin_from best_i best i l = (i + k)%nat /\
       l !! k = Some d /\ (d < best)%R /\
       (forall j x, l !! j = Some x -> (d <= x)%R) /\
       (forall j x, (j < k)%nat -> l !! j = Some x -> (d < x)%R).
Proof.
  induction l as [|y t IH]; intros best_i best i; simpl.
  - left. split; [reflexivity|]. intros j x Hj. by rewrite lookup_nil in Hj.
  - destruct (Np.Rltb y best) eqn:Hlt.
    + apply Rltb_true in Hlt. right.
      destruct (IH i y (S i)) as [[-> Hall] | (k & d & -> & Hk & Hd & Hall & Hfirst)].
      * exists 0%nat, y. split_and!; [lia | done | lra | | intros; lia].
        intros [|j] x Hj; simpl in Hj; [injection Hj as <-; lra | eauto].
      * exists (S k), d. split_and!; [lia | done | lra | | ].
        -- intros [|j] x Hj; simpl in Hj; [injection Hj as <-; lra | eauto].
        -- intros [|j] x Hlt' Hj; simpl in Hj; [injection Hj as <-; lra|].
           apply (Hfirst j); [lia | done].
    + apply Rltb_false in Hlt.
      destruct (IH best_i best (S i)) as [[-> Hall] | (k & d & -> & Hk & Hd & Hall & Hfirst)].
      * left. split; [reflexivity|].
        intros [|j] x Hj; simpl in Hj; [injection Hj as <-; lra | eauto].
      * right. exists (S k), d. split_and!; [lia | done | lra | | ].
        -- intros [|j] x Hj; simpl in Hj; [injection Hj as <-; lra | eauto].
        -- intros [|j] x Hlt' Hj; simpl in Hj; [injection Hj as <-; lra|].
           apply (Hfirst j); [lia | done].
Qed.

Lemma argmin_spec (l : list R) :
  l <> [] -> exists i d, Np.argmin l = Ok i /\ first_minimum l i d.
Proof.
  destruct l as [|y t]; [done|]. intros _. simpl.
  destruct (argmin_from_spec t 0 y 1) as [[-> Hall] | (k & d & -> & Hk & Hd & Hall & Hfirst)].
  - exists 0%nat, y. split; [done|]. split_and!; [done | | intros; lia].
    intros [|j] x Hj; simpl in Hj; [injection Hj as <-; lra | eauto].
  - exists (S k), d. split; [done|]. split_and!; [done | | ].
    + intros [|j] x Hj; simpl in Hj; [injection Hj as <-; lra | eauto].
    + intros [|j] x Hlt' Hj; simpl in Hj; [injection Hj as <-; lra|].
      apply (Hfirst j); [lia | done].
Qed.

Lemma max_from_elem {A} (key : A -> Z) (l : list A) : forall best,
  Py.max_from key best l = best \/ Py.max_from key best l ∈ l.
Proof.
  induction l as [|x t IH]; intros best; simpl; [by left|].
  destruct (key best <? key x)%Z.
  - destruct (IH x) as [-> | H]; right; [left | by right].
  - destruct (IH best) as [-> | H]; [by left | right; by right].
Qed.

Lemma largest_spec (faces : list FaceData) :
  faces <> [] -> exists face, largest faces = Ok face /\ face ∈ faces.
Proof.
  destruct faces as [|x t]; [done|]. intros _. eexists. split; [reflexivity|].
  destruct (max_from_elem face_area_key t x) as [-> | H]; [left | by right].
Qed.

(** ** The identity matcher *)

Lemma face_distance_lookup known probe i d :
  face_distance known probe !! i = Some d ->
  exists e, known !! i = Some e /\ d = Np.linalg_norm (Np.sub e probe).
Proof.
  unfold face_distance. rewrite list_lookup_fmap.
  destruct (known !! i) as [e|]; simpl; [|done].
  intros [= <-]. by exists e.
Qed.

Lemma matched_name_empty self probe :
  known_encodings self = [] -> matched_name self probe = Ok Unknown.
Proof. unfold matched_name. by intros ->. Qed.

(** With a non-empty, index-aligned gallery the matcher settles on the first
    entry at the least distance and compares that distance with the tolerance. *)
Lemma matched_name_nonempty self probe :
  known_encodings self <> [] ->
  length (known_user_ids self) = length (known_encodings self) ->
  exists i d uid,
    first_minimum (face_distance (known_encodings self) probe) i d /\
    known_user_ids self !! i = Some uid /\
    matched_name self probe =
      Ok (if Np.Rleb d (tolerance self)
          then Py.dict_get (user_id_to_name_map self) uid Unknown
          else Unknown).
Proof.
  intros Hne Hlen. unfold matched_name.
  set (ds := face_distance (known_encodings self) probe).
  assert (Hds : length ds = length (known_encodings self))
    by (unfold ds, face_distance; apply length_fmap).
  assert (Hnil : ds <> []).
  { intros E. rewrite E in Hds. destruct (known_encodings self); simpl in Hds; done. }
  destruct (argmin_spec ds Hnil) as (i & d & Harg & Hmin).
  assert (Hi : (i < length (known_user_ids self))%nat).
  { rewrite Hlen, <- Hds. apply lookup_lt_is_Some. destruct Hmin as [-> _]. eauto. }
  destruct (lookup_lt_is_Some_2 _ _ Hi) as [uid Huid].
  exists i, d, uid. split_and!; [done | done |].
  destruct ds as [|d0 ds'] eqn:Eds; [done|].
  change (0 <? length (d0 :: ds'))%nat with true. cbv iota.
  rewrite Harg. destruct Hmin as [Hd _].
  unfold Py.index. simpl. rewrite Hd. simpl.
  destruct (Np.Rleb d (tolerance self)); [|done].
  by rewrite Huid.
Qed.

(** C1.  For every probe, every gallery given as parallel lists and every
    name map, [authenticate_face] returns the one result below.  Its name is
    ["Unknown"] when the gallery is empty.  Otherwise the gallery entry [i]
    it settles on is at the least Euclidean distance [d] from the probe and is
    the first such entry; the name is the one the map gives for the entry's
    user id when [d <= tolerance] (so also when [d = tolerance]), and
    ["Unknown"] when the map has no such id or when [d > tolerance]. *)
Theorem identity_matcher_verdict (self : AuthenticationService) (face_data : FaceData) :
  length (known_user_ids self) = length (known_encodings self) ->
  exists verdict,
    authenticate_face self face_data
      = Ok [ {| name := verdict; box := location face_data |} ] /\
    (known_encodings self = [] -> verdict = Unknown) /\
    (known_encodings self <> [] ->
     exists i e uid d,
       known_encodings self !! i = Some e /\
       known_user_ids self !! i = Some uid /\
       d = Np.linalg_norm (Np.sub e (encoding face_data)) /\
       first_minimum
         (face_distance (known_encodings self) (encoding face_data)) i d /\
       (forall n, (d <= tolerance self)%R ->
                  user_id_to_name_map self !! uid = Some n -> verdict = n) /\
       (forall n, d = tolerance self ->
                  user_id_to_name_map self !! uid = Some n -> verdict = n) /\
       (user_id_to_name_map self !! uid = None -> verdict = Unknown) /\
       ((d > tolerance self)%R -> verdict = Unknown)).
Proof.
  intros Hlen. unfold authenticate_face.
  destruct (known_encodings self) as [|e0 es] eqn:Eknown.
  - exists Unknown. rewrite matched_name_empty by done. split_and!; done.
  - destruct (matched_name_nonempty self (encoding face_data)) as (i & d & uid & Hmin & Huid & ->).
    { by rewrite Eknown. }
    { by rewrite Eknown. }
    rewrite Eknown in Hmin.
    eexists. split; [reflexivity|]. split; [done|]. intros _.
    destruct (face_distance_lookup _ _ _ _ (proj1 Hmin)) as (e & He & Hd).
    exists i, e, uid, d. split_and!; try done.
    + intros n Hle Hn. apply Rleb_true in Hle. rewrite Hle.
      unfold Py.dict_get. by rewrite Hn.
    + intros n Heq Hn. assert (Hle : (d <= tolerance self)%R) by lra.
      apply Rleb_true in Hle. rewrite Hle. unfold Py.dict_get. by rewrite Hn.
    + intros Hn. destruct (Np.Rleb d (tolerance self)); [|done].
      unfold Py.dict_get. by rewrite Hn.
    + intros Hgt. apply Rleb_false in Hgt. by rewrite Hgt.
Qed.

(** C10, as the code has it.  Whatever the embedding and the location, and
    for every gallery whose list of user ids is as long as its list of
    encodings (the empty gallery included), [authenticate_face] returns a
    list of exactly one result whose box is the location it was given. *)
Theorem authenticate_face_single_result (self : AuthenticationService)
    (face_data : FaceData) :
  length (known_user_ids self) = length (known_encodings self) ->
  exists r, authenticate_face self face_data = Ok [r] /\ box r = location face_data.
Proof.
  intros Hlen. unfold authenticate_face.
  destruct (known_encodings self) as [|e0 es] eqn:Eknown.
  - rewrite matched_name_empty by done. eexists. split; reflexivity.
  - destruct (matched_name_nonempty self (encoding face_data)) as (i & d & uid & _ & _ & ->).
    { by rewrite Eknown. }
    { by rewrite Eknown. }
    eexists. split; reflexivity.
Qed.

(** ** The matcher scenario of the specification *)

Lemma linalg_norm_single x : Np.linalg_norm [x] = Rabs x.
Proof.
  unfold Np.linalg_norm, Np.sum_sq. simpl.
  replace (x * x + 0)%R with (Rsqr x) by (unfold Rsqr; ring).
  apply sqrt_Rsqr_abs.
Qed.

(** A gallery of one sample in a one-dimensional embedding space. *)
Lemma authenticate_single_entry e uid probe_enc loc tol m :
  authenticate_face
    {| tolerance := tol; known_encodings := [[e]]; known_user_ids := [uid];
       user_id_to_name_map := m |}
    {| location := loc; encoding := [probe_enc] |}
  = Ok [ {| name := if Np.Rleb (Rabs (e - probe_enc)) tol
                    then Py.dict_get m uid Unknown else Unknown;
            box := loc |} ].
Proof.
  unfold authenticate_face, matched_name, face_distance. simpl.
  change (Np.sub [e] [probe_enc]) with [(e - probe_enc)%R].
  rewrite linalg_norm_single.
  unfold Py.index. simpl.
  destruct (Np.Rleb _ tol); reflexivity.
Qed.

(** Tolerance 0.55 and a probe at distance exactly 0.55: accepted. *)
Example scenario_match_at_tolerance :
  authenticate_face Sample.gallery_of_one (Sample.probe_at 0.55)
  = Ok [ {| name := "Alice"; box := location (Sample.probe_at 0.55) |} ].
Proof.
  unfold Sample.gallery_of_one, Sample.probe_at.
  rewrite authenticate_single_entry.
  assert (H : Np.Rleb (Rabs (0 - 0.55)) 0.55 = true).
  { apply Rleb_true. rewrite Rabs_left by lra. lra. }
  rewrite H. reflexivity.
Qed.

(** A probe at distance 0.5501: rejected. *)
Example scenario_reject_above_tolerance :
  authenticate_face Sample.gallery_of_one (Sample.probe_at 0.5501)
  = Ok [ {| name := "Unknown"; box := location (Sample.probe_at 0.5501) |} ].
Proof.
  unfold Sample.gallery_of_one, Sample.probe_at.
  rewrite authenticate_single_entry.
  assert (H : Np.Rleb (Rabs (0 - 0.5501)) 0.55 = false).
  { apply Rleb_false. rewrite Rabs_left by lra. lra. }
  rewrite H. reflexivity.
Qed.

(** C10 as the specification words it fails on a gallery state whose two
    lists are not aligned: with one encoding and no user id, a probe
    within the tolerance makes the look-up of the winning user id raise
    [IndexError], and no result is returned. *)
Example misaligned_gallery_raises :
  authenticate_face Sample.misaligned (Sample.probe_at 0) = Raise IndexError.
Proof.
  unfold authenticate_face, matched_name, face_distance, Sample.misaligned, Sample.probe_at.
  simpl. change (Np.sub [0%R] [0%R]) with [(0 - 0)%R].
  rewrite linalg_norm_single. unfold Py.index. simpl.
  assert (H : Np.Rleb (Rabs (0 - 0)) 0.55 = true).
  { apply Rleb_true. rewrite Rminus_diag, Rabs_R0. lra. }
  rewrite H. reflexivity.
Qed.

(** ** The gate *)

Lemma calculate_face_metrics_signals (guide : Box) (loc : Location) :
  get_box_area guide <> 0%Z ->
  calculate_face_metrics guide (get_face_properties loc).1 (get_face_properties loc).2
    = Ok (centerDistance guide loc, sizeRatio guide loc).
Proof.
  intros Harea. unfold calculate_face_metrics.
  apply Z.eqb_neq in Harea. rewrite Harea.
  unfold centerDistance, sizeRatio, Np.linalg_norm, Np.sum_sq. simpl.
  do 2 f_equal. f_equal. ring.
Qed.

(** The guide rectangle of app.py has a non-zero area. *)
Lemma guide_area_not_zero : get_box_area GUIDE_BOX_RECT <> 0%Z.
Proof. vm_compute. discriminate. Qed.

Lemma feedback_center pT d : (d > pT)%R -> feedback pT d = MSG_CENTER.
Proof. intros H. unfold feedback. apply Rltb_true in H. by rewrite H. Qed.

Lemma feedback_closer pT d : (d <= pT)%R -> feedback pT d = MSG_CLOSER.
Proof. intros H. unfold feedback. apply Rltb_false in H. by rewrite H. Qed.

(** What the two authentication handlers do once the largest face is known. *)
Lemma stream_authentication_face detect auth config frame face :
  detect frame <> [] ->
  largest (detect frame) = Ok face ->
  get_box_area (cfg_GUIDE_BOX_RECT config) <> 0%Z ->
  StreamProcessor._handle_authentication_frame detect auth config frame =
    let framed := draw_guide_box frame (cfg_GUIDE_BOX_RECT config) GREY in
    let d := centerDistance (cfg_GUIDE_BOX_RECT config) (location face) in
    let r := sizeRatio (cfg_GUIDE_BOX_RECT config) (location face) in
    if gate (cfg_POSITION_THRESHOLD config) (cfg_SIZE_THRESHOLD config) d r then
      auth_result ← authenticate_face auth face;
      first ← Py.index auth_result 0;
      mret (draw_face_box framed (location face) (MSG_RESULT +:+ name first)
              (if String.eqb (name first) Unknown then RED else GREEN))
    else
      Ok (draw_face_box framed (location face)
            (feedback (cfg_POSITION_THRESHOLD config) d) YELLOW).
Proof.
  intros Hne Hface Harea. unfold StreamProcessor._handle_authentication_frame.
  destruct (detect frame) as [|f fs] eqn:Hd; [done|].
  rewrite Hface. simpl.
  pose proof (calculate_face_metrics_signals _ (location face) Harea) as Hm.
  destruct (get_face_properties (location face)) as [fb fa]. simpl in Hm.
  rewrite Hm. reflexivity.
Qed.

(** The whole-pixel centre of a box of even size is its centre. *)
Lemma get_box_center_even (box : Box) :
  even_sized box = true ->
  (IZR (get_box_center box).1, IZR (get_box_center box).2) = box_centre box.
Proof.
  destruct box as [[[x y] w] h]. unfold even_sized, get_box_center, box_centre.
  intros [Hw Hh]%andb_true_iff.
  apply Z.even_spec in Hw as [a ->]. apply Z.even_spec in Hh as [b ->].
  cbn [fst snd].
  rewrite !(Z.mul_comm 2), !Z.div_mul by lia.
  rewrite !plus_IZR, !mult_IZR. f_equal; simpl; lra.
Qed.

(** On boxes of even size the distance the code gates on is the centre
    distance of the specification. *)
Lemma centerDistance_even (guide : Box) (loc : Location) :
  even_sized guide = true ->
  even_sized (get_face_properties loc).1 = true ->
  centerDistance guide loc = spec_centerDistance guide loc.
Proof.
  intros Hg Hf. unfold centerDistance, spec_centerDistance.
  pose proof (get_box_center_even guide Hg) as Eg.
  pose proof (get_box_center_even _ Hf) as Ef.
  destruct (box_centre guide) as [gx gy].
  destruct (box_centre (get_face_properties loc).1) as [fx fy].
  injection Eg as Egx Egy. injection Ef as Efx Efy.
  cbn [fst snd]. rewrite !minus_IZR, Egx, Egy, Efx, Efy. reflexivity.
Qed.

(** C2, as the code has it.  For every frame with a detected face, every
    guide rectangle of non-zero area and every pair of thresholds, the
    authentication handler takes the ready branch (it runs the matcher and
    draws its verdict) exactly when distance <= positionThreshold and
    sizeRatio >= sizeRatioThreshold for the largest face, where the
    distance is measured between the whole-pixel centres
    (x + floor(w/2), y + floor(h/2)) of the guide and of the face box; when
    it is not ready it draws the feedback message, which is "center your
    face" if that distance > positionThreshold, whatever the size, and
    "move closer" otherwise.  When the guide and the face box have even
    width and height, that distance is the centerDistance of the
    specification. *)
Theorem gate_ready_and_feedback
    (detect : Frame -> list FaceData) (auth : AuthenticationService)
    (guide : Box) (pT sT : R) (frame : Frame) :
  get_box_area guide <> 0%Z ->
  detect frame <> [] ->
  exists face,
    largest (detect frame) = Ok face /\
    let config := mkConfig guide pT sT in
    let d := centerDistance guide (location face) in
    let r := sizeRatio guide (location face) in
    let framed := draw_guide_box frame guide GREY in
    (gate pT sT d r = true <-> (d <= pT)%R /\ (r >= sT)%R) /\
    (gate pT sT d r = true ->
       StreamProcessor._handle_authentication_frame detect auth config frame =
         (auth_result ← authenticate_face auth face;
          first ← Py.index auth_result 0;
          mret (draw_face_box framed (location face) (MSG_RESULT +:+ name first)
                  (if String.eqb (name first) Unknown then RED else GREEN)))) /\
    (gate pT sT d r = false ->
       exists message,
         StreamProcessor._handle_authentication_frame detect auth config frame =
           Ok (draw_face_box framed (location face) message YELLOW) /\
         ((d > pT)%R -> message = MSG_CENTER) /\
         (~ (d > pT)%R -> message = MSG_CLOSER)) /\
    (even_sized guide = true ->
     even_sized (get_face_properties (location face)).1 = true ->
     d = spec_centerDistance guide (location face)).
Proof.
  intros Harea Hne.
  destruct (largest_spec _ Hne) as (face & Hface & _).
  exists face. split; [done|]. intros config d r framed.
  pose proof (stream_authentication_face detect auth config frame face Hne Hface Harea) as Hh.
  cbv zeta in Hh. simpl cfg_GUIDE_BOX_RECT in Hh. simpl cfg_POSITION_THRESHOLD in Hh.
  simpl cfg_SIZE_THRESHOLD in Hh. fold d r framed in Hh.
  split; [apply gate_true|]. split; [|split].
  - intros Hg. by rewrite Hg in Hh.
  - intros Hg. rewrite Hg in Hh. exists (feedback pT d). split; [done|]. split.
    + apply feedback_center.
    + intros Hn. apply feedback_closer. lra.
  - apply centerDistance_even.
Qed.

(** The first two binds of a frame handler, once the largest face [face]
    ([Hface]) and its metrics ([Hm]) are known. *)
Ltac bind_largest_face Hface Hm face :=
  unfold mbind at 1, M_bind, lift; rewrite Hface;
  destruct (get_face_properties (location face)) as [? ?]; simpl in Hm;
  unfold mbind at 1, M_bind; rewrite Hm.

Lemma hold_result_appends turns result_frame : forall out,
  App.hold_result turns result_frame out = (Ok tt, out ++ repeat result_frame turns).
Proof.
  induction turns as [|n IH]; intros out; simpl.
  - by rewrite app_nil_r.
  - unfold mbind, M_bind, App.yield, modify. rewrite IH.
    by rewrite <- app_assoc.
Qed.

Lemma app_pass_face detect auth turns frame out face :
  detect frame <> [] ->
  largest (detect frame) = Ok face ->
  App.generate_frames_pass detect auth turns (Some frame) out =
    let framed := draw_guide_box frame GUIDE_BOX_RECT GREY in
    let face_box := (get_face_properties (location face)).1 in
    let d := centerDistance GUIDE_BOX_RECT (location face) in
    let r := sizeRatio GUIDE_BOX_RECT (location face) in
    if gate POSITION_THRESHOLD SIZE_THRESHOLD d r then
      (_ ← App.yield (annotate framed face_box MSG_AUTHENTICATING WHITE);
       auth_result ← lift (authenticate_face auth face);
       first ← lift (Py.index auth_result 0);
       App.hold_result turns
         (annotate framed face_box (MSG_RESULT +:+ name first)
            (if String.eqb (name first) Unknown then RED else GREEN))) out
    else
      (Ok tt, out ++ [annotate framed face_box (feedback POSITION_THRESHOLD d) YELLOW]).
Proof.
  intros Hne Hface.
  pose proof (calculate_face_metrics_signals _ (location face) guide_area_not_zero)
    as Hm.
  unfold App.generate_frames_pass.
  destruct (detect frame) as [|f fs] eqn:Hd; [done|].
  cbn -[calculate_face_metrics gate feedback centerDistance sizeRatio largest
        get_face_properties annotate].
  bind_largest_face Hface Hm face.
  destruct (gate POSITION_THRESHOLD SIZE_THRESHOLD _ _); reflexivity.
Qed.

(** The same branch structure in the stream of app.py, at its constants:
    a ready frame is answered first with the "authenticating" frame, a frame
    that is not ready with the feedback frame alone. *)
Lemma app_gate_ready_and_feedback
    (detect : Frame -> list FaceData) (auth : AuthenticationService)
    (turns : nat) (frame : Frame) (out : list Frame) :
  detect frame <> [] ->
  exists face,
    largest (detect frame) = Ok face /\
    let d := centerDistance GUIDE_BOX_RECT (location face) in
    let r := sizeRatio GUIDE_BOX_RECT (location face) in
    let framed := draw_guide_box frame GUIDE_BOX_RECT GREY in
    let face_box := (get_face_properties (location face)).1 in
    (gate POSITION_THRESHOLD SIZE_THRESHOLD d r = true ->
       exists rest,
         (App.generate_frames_pass detect auth turns (Some frame) out).2
           = out ++ annotate framed face_box MSG_AUTHENTICATING WHITE :: rest) /\
    (gate POSITION_THRESHOLD SIZE_THRESHOLD d r = false ->
       exists message,
         App.generate_frames_pass detect auth turns (Some frame) out =
           (Ok tt, out ++ [annotate framed face_box message YELLOW]) /\
         ((d > POSITION_THRESHOLD)%R -> message = MSG_CENTER) /\
         (~ (d > POSITION_THRESHOLD)%R -> message = MSG_CLOSER)).
Proof.
  intros Hne. destruct (largest_spec _ Hne) as (face & Hface & _).
  exists face. split; [done|]. intros d r framed face_box.
  pose proof (app_pass_face detect auth turns frame out face Hne Hface) as Hp.
  cbv zeta in Hp. fold d r framed face_box in Hp.
  split; intros Hg; rewrite Hg in Hp.
  - rewrite Hp. unfold mbind, M_bind, App.yield, modify, lift.
    destruct (authenticate_face auth face) as [res|e]; [|by exists []].
    destruct (Py.index res 0) as [first|e]; [|by exists []].
    rewrite hold_result_appends. simpl. rewrite <- app_assoc. by eexists.
  - exists (feedback POSITION_THRESHOLD d). split; [done|]. split.
    + apply feedback_center.
    + intros Hn. apply feedback_closer. lra.
Qed.

(** C9.  The gate is monotonic in its thresholds: for every face box and
    guide rectangle, a face that is ready at (positionThreshold,
    sizeRatioThreshold) is still ready at every positionThreshold' >=
    positionThreshold and sizeRatioThreshold' <= sizeRatioThreshold. *)
Theorem gate_monotonic (guide : Box) (loc : Location) (pT sT pT' sT' : R) :
  gate pT sT (centerDistance guide loc) (sizeRatio guide loc) = true ->
  (pT <= pT')%R ->
  (sT' <= sT)%R ->
  gate pT' sT' (centerDistance guide loc) (sizeRatio guide loc) = true.
Proof.
  rewrite !gate_true. intros [Hd Hr] HpT HsT. split; lra.
Qed.

(** ** The gate scenario of the specification *)

Lemma centerDistance_level guide loc (dx : Z) :
  ((get_box_center guide).1 - (get_box_center (get_face_properties loc).1).1 = dx)%Z ->
  ((get_box_center guide).2 - (get_box_center (get_face_properties loc).1).2 = 0)%Z ->
  centerDistance guide loc = Rabs (IZR dx).
Proof.
  intros Hx Hy. unfold centerDistance. rewrite Hx, Hy.
  replace (IZR dx * IZR dx + 0 * 0)%R with (Rsqr (IZR dx)) by (unfold Rsqr; ring).
  apply sqrt_Rsqr_abs.
Qed.

(** Centre 10 px off, 0.6 of the guide's area, thresholds (50, 0.5): ready. *)
Example scenario_gate_ready :
  gate POSITION_THRESHOLD SIZE_THRESHOLD
       (centerDistance GUIDE_BOX_RECT Sample.face_near)
       (sizeRatio GUIDE_BOX_RECT Sample.face_near) = true.
Proof.
  apply gate_true.
  rewrite (centerDistance_level _ _ (-10)) by reflexivity.
  unfold sizeRatio, POSITION_THRESHOLD, SIZE_THRESHOLD.
  change (get_face_properties Sample.face_near).2 with 94500%Z.
  change (get_box_area GUIDE_BOX_RECT) with 157500%Z.
  rewrite Rabs_left by lra. split; lra.
Qed.

(** Centre 80 px off: not ready, "center your face". *)
Example scenario_gate_off_centre :
  gate POSITION_THRESHOLD SIZE_THRESHOLD
       (centerDistance GUIDE_BOX_RECT Sample.face_off_centre)
       (sizeRatio GUIDE_BOX_RECT Sample.face_off_centre) = false /\
  feedback POSITION_THRESHOLD (centerDistance GUIDE_BOX_RECT Sample.face_off_centre)
    = MSG_CENTER.
Proof.
  rewrite (centerDistance_level _ _ (-80)) by reflexivity.
  assert (H : (Rabs (-80) > POSITION_THRESHOLD)%R).
  { unfold POSITION_THRESHOLD. rewrite Rabs_left by lra. lra. }
  split.
  - apply gate_false. by left.
  - by apply feedback_center.
Qed.

(** Centre 10 px off, 0.3 of the guide's area: not ready, "move closer". *)
Example scenario_gate_too_small :
  gate POSITION_THRESHOLD SIZE_THRESHOLD
       (centerDistance GUIDE_BOX_RECT Sample.face_small)
       (sizeRatio GUIDE_BOX_RECT Sample.face_small) = false /\
  feedback POSITION_THRESHOLD (centerDistance GUIDE_BOX_RECT Sample.face_small)
    = MSG_CLOSER.
Proof.
  rewrite (centerDistance_level _ _ (-10)) by reflexivity.
  assert (H : (Rabs (-10) <= POSITION_THRESHOLD)%R).
  { unfold POSITION_THRESHOLD. rewrite Rabs_left by lra. lra. }
  split.
  - apply gate_false. right. unfold sizeRatio, SIZE_THRESHOLD.
    change (get_face_properties Sample.face_small).2 with 47250%Z.
    change (get_box_area GUIDE_BOX_RECT) with 157500%Z. lra.
  - by apply feedback_closer.
Qed.

(** C2 as the specification words it fails on a face of odd width.  The
    centre of the 301 x 300 face is 50.5 px from the centre of the guide
    rectangle, beyond the position threshold of 50, and its size ratio is
    above the size threshold: by the claim the gate is not ready and the
    message is "center your face".  The handler measures 50 px between the
    whole-pixel centres, runs the matcher and draws its verdict. *)
Lemma odd_face_ready_beyond_threshold :
  (spec_centerDistance GUIDE_BOX_RECT (location Fixture.odd_face)
   > POSITION_THRESHOLD)%R /\
  (sizeRatio GUIDE_BOX_RECT (location Fixture.odd_face) >= SIZE_THRESHOLD)%R /\
  StreamProcessor._handle_authentication_frame Fixture.one_odd_face
    Sample.gallery_of_one Sample.config Sample.frame
  = Ok (draw_face_box (draw_guide_box Sample.frame GUIDE_BOX_RECT GREY)
          (location Fixture.odd_face) (MSG_RESULT +:+ "Alice") GREEN).
Proof.
  assert (Hr : (sizeRatio GUIDE_BOX_RECT (location Fixture.odd_face)
                >= SIZE_THRESHOLD)%R).
  { unfold sizeRatio, SIZE_THRESHOLD.
    change (get_face_properties (location Fixture.odd_face)).2 with 90300%Z.
    change (get_box_area GUIDE_BOX_RECT) with 157500%Z. lra. }
  split_and!; [| exact Hr |].
  - unfold spec_centerDistance, POSITION_THRESHOLD.
    change (box_centre GUIDE_BOX_RECT) with ((465 + 350 / 2)%R, (135 + 450 / 2)%R).
    change (box_centre (get_face_properties (location Fixture.odd_face)).1)
      with ((540 + IZR (841 - 540) / 2)%R, (210 + IZR (510 - 210) / 2)%R).
    cbn [fst snd].
    change (841 - 540)%Z with 301%Z. change (510 - 210)%Z with 300%Z.
    replace ((465 + 350 / 2 - (540 + 301 / 2)) * (465 + 350 / 2 - (540 + 301 / 2))
             + (135 + 450 / 2 - (210 + 300 / 2)) * (135 + 450 / 2 - (210 + 300 / 2)))%R
      with (Rsqr 50.5) by (unfold Rsqr; lra).
    rewrite sqrt_Rsqr by lra. lra.
  - assert (Hne : Fixture.one_odd_face Sample.frame <> []) by discriminate.
    rewrite (stream_authentication_face Fixture.one_odd_face Sample.gallery_of_one
               Sample.config Sample.frame Fixture.odd_face Hne eq_refl
               guide_area_not_zero).
    cbv zeta.
    assert (Hg : gate (cfg_POSITION_THRESHOLD Sample.config)
                   (cfg_SIZE_THRESHOLD Sample.config)
                   (centerDistance (cfg_GUIDE_BOX_RECT Sample.config)
                      (location Fixture.odd_face))
                   (sizeRatio (cfg_GUIDE_BOX_RECT Sample.config)
                      (location Fixture.odd_face)) = true).
    { apply gate_true. split; [|exact Hr].
      change (cfg_GUIDE_BOX_RECT Sample.config) with GUIDE_BOX_RECT.
      rewrite (centerDistance_level _ _ (-50)) by reflexivity.
      change (cfg_POSITION_THRESHOLD Sample.config) with POSITION_THRESHOLD.
      unfold POSITION_THRESHOLD. rewrite Rabs_left by lra. lra. }
    rewrite Hg.
    unfold Sample.gallery_of_one, Fixture.odd_face.
    rewrite authenticate_single_entry.
    assert (H : Np.Rleb (Rabs (0 - 0)) 0.55 = true).
    { apply Rleb_true. rewrite Rminus_diag, Rabs_R0. lra. }
    rewrite H. reflexivity.
Qed.

(** ** The registration handlers *)

Lemma stream_registration_face detect config frame face s :
  detect frame <> [] ->
  largest (detect frame) = Ok face ->
  get_box_area (cfg_GUIDE_BOX_RECT config) <> 0%Z ->
  StreamProcessor._handle_registration_frame detect config frame s =
    let d := centerDistance (cfg_GUIDE_BOX_RECT config) (location face) in
    let r := sizeRatio (cfg_GUIDE_BOX_RECT config) (location face) in
    if bool_decide (mode s = REGISTRATION_SEARCHING)
       && gate (cfg_POSITION_THRESHOLD config) (cfg_SIZE_THRESHOLD config) d r
    then (Ok (draw_face_box frame (location face) MSG_FROZEN GREEN),
          set_captured_frame (Some frame) (set_mode REGISTRATION_FROZEN s))
    else if bool_decide (mode s = REGISTRATION_FROZEN)
    then (Ok (draw_face_box frame (location face) MSG_FROZEN GREEN), s)
    else (Ok (draw_face_box frame (location face)
                (feedback (cfg_POSITION_THRESHOLD config) d) YELLOW), s).
Proof.
  intros Hne Hface Harea. unfold StreamProcessor._handle_registration_frame.
  destruct (detect frame) as [|f fs] eqn:Hd; [done|].
  pose proof (calculate_face_metrics_signals _ (location face) Harea) as Hm.
  bind_largest_face Hface Hm face.
  unfold mbind, M_bind, get, modify. cbv zeta.
  destruct (bool_decide (mode s = REGISTRATION_SEARCHING)) eqn:Hs; simpl.
  - destruct (gate _ _ _ _); simpl; [reflexivity|].
    apply bool_decide_eq_true in Hs. rewrite Hs. reflexivity.
  - destruct (bool_decide (mode s = REGISTRATION_FROZEN)); reflexivity.
Qed.

(** In test_app.py the state is updated in the same way, and the call that
    should draw the message then raises. *)
Lemma test_app_registration_face detect frame face s :
  detect frame <> [] ->
  largest (detect frame) = Ok face ->
  TestApp.handle_registration_frame detect frame s =
    let d := centerDistance GUIDE_BOX_RECT (location face) in
    let r := sizeRatio GUIDE_BOX_RECT (location face) in
    if bool_decide (mode s = REGISTRATION_SEARCHING)
       && gate POSITION_THRESHOLD SIZE_THRESHOLD d r
    then (Raise TypeError,
          set_captured_frame (Some frame) (set_mode REGISTRATION_FROZEN s))
    else (Raise TypeError, s).
Proof.
  intros Hne Hface. unfold TestApp.handle_registration_frame.
  destruct (detect frame) as [|f fs] eqn:Hd; [done|].
  pose proof (calculate_face_metrics_signals _ (location face) guide_area_not_zero)
    as Hm.
  bind_largest_face Hface Hm face.
  unfold mbind, M_bind, get, modify, raise. cbv zeta.
  destruct (bool_decide (mode s = REGISTRATION_SEARCHING) && gate _ _ _ _); reflexivity.
Qed.

(** C8.  In REGISTRATION_SEARCHING, a frame whose largest face passes the
    gate moves the session to REGISTRATION_FROZEN and stores that frame,
    taken before anything is drawn on it, as the captured frame.  The new
    captured frame does not depend on what was captured before: the state
    has one optional slot for it, so a session state (reachable or not)
    holds none or exactly one, and the capture replaces the slot's content.
    test_app.py makes the same update with its own constants. *)
Theorem auto_freeze
    (detect : Frame -> list FaceData) (guide : Box) (pT sT : R)
    (frame : Frame) (s : AppState) :
  mode s = REGISTRATION_SEARCHING ->
  get_box_area guide <> 0%Z ->
  detect frame <> [] ->
  exists face,
    largest (detect frame) = Ok face /\
    let frozen := {| mode := REGISTRATION_FROZEN;
                     captured_frame := Some frame;
                     last_auth_result := last_auth_result s |} in
    (gate pT sT (centerDistance guide (location face))
                (sizeRatio guide (location face)) = true ->
     StreamProcessor._handle_registration_frame detect (mkConfig guide pT sT) frame s =
       (Ok (draw_face_box frame (location face) MSG_FROZEN GREEN), frozen)) /\
    (gate POSITION_THRESHOLD SIZE_THRESHOLD
          (centerDistance GUIDE_BOX_RECT (location face))
          (sizeRatio GUIDE_BOX_RECT (location face)) = true ->
     (TestApp.handle_registration_frame detect frame s).2 = frozen) /\
    (forall s0, reachable s0 ->
       captured_frame s0 = None \/ exists still, captured_frame s0 = Some still).
Proof.
  intros Hs Harea Hne.
  destruct (largest_spec _ Hne) as (face & Hface & _).
  exists face. split; [done|]. intros frozen. split_and!.
  - intros Hg.
    rewrite (stream_registration_face detect (mkConfig guide pT sT) frame face s
               Hne Hface Harea).
    cbv zeta. simpl cfg_GUIDE_BOX_RECT. simpl cfg_POSITION_THRESHOLD.
    simpl cfg_SIZE_THRESHOLD. rewrite Hg, Hs. reflexivity.
  - intros Hg. rewrite (test_app_registration_face detect frame face s Hne Hface).
    cbv zeta. rewrite Hg, Hs. reflexivity.
  - intros s0 _. destruct (captured_frame s0); eauto.
Qed.

Lemma stream_no_face detect auth config frame s :
  detect frame = [] ->
  StreamProcessor.handle_frame detect auth config frame s =
    match mode s with
    | AUTHENTICATING => (Ok (draw_guide_box frame (cfg_GUIDE_BOX_RECT config) GREY), s)
    | _ => (Ok frame, set_captured_frame None s)
    end.
Proof.
  intros Hd. unfold StreamProcessor.handle_frame, mbind, M_bind, get.
  unfold StreamProcessor._handle_authentication_frame,
    StreamProcessor._handle_registration_frame, lift.
  rewrite Hd. destruct (mode s); reflexivity.
Qed.

(** C7, as the code has it.  For every frame in which no face is detected
    the handler returns the frame without a face annotation and leaves the
    mode unchanged.  In AUTHENTICATING the state is untouched and the frame
    carries the guide outline only; in REGISTRATION_SEARCHING and in
    REGISTRATION_FROZEN alike the captured frame is cleared and the frame
    is returned as it came (also by the handler of test_app.py). *)
Theorem no_face_frame
    (detect : Frame -> list FaceData) (auth : AuthenticationService)
    (config : Config) (frame : Frame) (s : AppState) :
  detect frame = [] ->
  exists out s',
    StreamProcessor.handle_frame detect auth config frame s = (Ok out, s') /\
    mode s' = mode s /\
    (mode s = AUTHENTICATING ->
       s' = s /\ out = draw_guide_box frame (cfg_GUIDE_BOX_RECT config) GREY) /\
    (mode s = REGISTRATION_SEARCHING \/ mode s = REGISTRATION_FROZEN ->
       captured_frame s' = None /\ out = frame /\
       TestApp.handle_registration_frame detect frame s = (Ok out, s')).
Proof.
  intros Hd. rewrite (stream_no_face detect auth config frame s Hd).
  assert (Ht : TestApp.handle_registration_frame detect frame s
               = (Ok frame, set_captured_frame None s)).
  { unfold TestApp.handle_registration_frame. by rewrite Hd. }
  destruct (mode s) eqn:Hm; eexists _, _; (split; [reflexivity|]);
    (split; [by rewrite ?Hm|]); split; intros H;
    try done; try (destruct H; done); auto.
Qed.

(** C7 as the specification words it fails in REGISTRATION_FROZEN: a frozen
    session whose still shows no face loses its captured frame. *)
Lemma frozen_no_face_clears_capture :
  Sample.no_face Sample.still = [] /\
  mode Sample.frozen = REGISTRATION_FROZEN /\
  captured_frame Sample.frozen = Some Sample.still /\
  captured_frame
    (StreamProcessor.handle_frame Sample.no_face Sample.service Sample.config
       Sample.still Sample.frozen).2 = None.
Proof. repeat split. Qed.

(** ** Commands *)

(** C5.  From REGISTRATION_FROZEN, recapture sets the mode to
    REGISTRATION_SEARCHING, never to AUTHENTICATING, and clears the captured
    frame; from either registration state, cancel sets the mode to
    AUTHENTICATING and clears the captured frame. *)
Theorem recapture_and_cancel (s : AppState) :
  (mode s = REGISTRATION_FROZEN ->
     mode (TestApp.recapture s).2 = REGISTRATION_SEARCHING /\
     mode (TestApp.recapture s).2 <> AUTHENTICATING /\
     captured_frame (TestApp.recapture s).2 = None) /\
  (mode s = REGISTRATION_SEARCHING \/ mode s = REGISTRATION_FROZEN ->
     mode (TestApp.cancel_registration s).2 = AUTHENTICATING /\
     captured_frame (TestApp.cancel_registration s).2 = None).
Proof. split; intros _; repeat split; done. Qed.

(** ** Submission *)

Lemma build_encodings_returns imread extract d :
  exists d', EncodingService.build_encodings_from_dataset imread extract d = (Ok tt, d') /\
             metadata_json d' = metadata_json d.
Proof.
  unfold EncodingService.build_encodings_from_dataset, DataManager.read_metadata,
    DataManager.save_encodings, mbind, M_bind, get, mret, M_ret, modify.
  destruct (metadata_json d) as [|u us] eqn:Hmd; [by exists d|].
  destruct (EncodingService.encode_users imread extract d (u :: us) ([], [])) as [encs ids].
  destruct encs; eexists; split; try reflexivity; done.
Qed.

(** [AuthenticationService] has no attribute [reload_knowledge]. *)
Lemma reload_knowledge_missing k :
  TestApp.call_auth_service "reload_knowledge" k
  = (Raise (AttributeError "reload_knowledge"), k).
Proof. reflexivity. Qed.

(** A submission that passes the guard enrols the user on disk and then
    stops at the call of [reload_knowledge]: the session state and the
    gallery in memory are as before. *)
Lemma submit_registration_accepted imread extract fresh_id now user frame k :
  user <> EmptyString ->
  captured_frame (TestApp.app_state k) = Some frame ->
  exists d',
    TestApp.submit_registration imread extract fresh_id now (Some user) k =
      (Raise (AttributeError "reload_knowledge"),
       {| TestApp.app_state := TestApp.app_state k;
          TestApp.disk := d';
          TestApp.auth_service := TestApp.auth_service k |}) /\
    metadata_json d' =
      metadata_json (TestApp.disk k)
      ++ [ {| user_id := fresh_id; user_name := user; registered_at := now |} ].
Proof.
  intros Hname Hcap. unfold TestApp.submit_registration.
  unfold mbind at 1, M_bind at 1, get. rewrite Hcap.
  apply String.eqb_neq in Hname. rewrite Hname.
  unfold mbind at 1, M_bind at 1, TestApp.on_disk at 1.
  unfold RegistrationService.register_new_user. rewrite Hname. simpl.
  match goal with
  | |- context [ {| TestApp.app_state := _; TestApp.disk := ?d;
                    TestApp.auth_service := _ |} ] =>
      destruct (build_encodings_returns imread extract d) as (d' & Hb & Hmd)
  end.
  unfold mbind at 1, M_bind at 1, TestApp.on_disk. cbn [TestApp.disk].
  rewrite Hb. exists d'. split; [reflexivity|]. by rewrite Hmd.
Qed.

Lemma submit_registration_guard imread extract fresh_id now form_name k :
  Py.truthy form_name = false \/ captured_frame (TestApp.app_state k) = None ->
  TestApp.submit_registration imread extract fresh_id now form_name k
  = (Ok TestApp.error_response, k).
Proof.
  intros H. unfold TestApp.submit_registration, mbind, M_bind, get.
  destruct form_name as [user|]; [|reflexivity].
  destruct (captured_frame (TestApp.app_state k)) as [frame|] eqn:Hcap; [|reflexivity].
  destruct H as [H|H]; [|done].
  simpl in H. apply negb_false_iff in H. by rewrite H.
Qed.

Lemma submit_registration_app_state imread extract fresh_id now form_name k :
  TestApp.app_state (TestApp.submit_registration imread extract fresh_id now form_name k).2
  = TestApp.app_state k.
Proof.
  destruct form_name as [user|]; [|reflexivity].
  destruct (captured_frame (TestApp.app_state k)) as [frame|] eqn:Hcap.
  - destruct (decide (user = EmptyString)) as [->|Hne].
    + unfold TestApp.submit_registration, mbind, M_bind, get. by rewrite Hcap.
    + destruct (submit_registration_accepted imread extract fresh_id now user frame k Hne Hcap)
        as (d' & -> & _). reflexivity.
  - unfold TestApp.submit_registration, mbind, M_bind, get. by rewrite Hcap.
Qed.

(** C4.  In every state of the kiosk, a submission with no captured frame,
    or with a name that is missing or empty, is answered with the error
    response (status "error", HTTP 400) and changes nothing: the session
    state, the files on disk and the gallery in memory are as before. *)
Theorem submit_registration_rejected
    (imread : Frame -> option Frame) (extract : Frame -> list (list R))
    (fresh_id now : string)
    (form_name : option string) (k : TestApp.Kiosk) :
  form_name = None \/ form_name = Some EmptyString \/
    captured_frame (TestApp.app_state k) = None ->
  exists response,
    TestApp.submit_registration imread extract fresh_id now form_name k = (Ok response, k) /\
    TestApp.status_code response = 400%Z /\
    TestApp.body response !! 0%nat = Some ("status", TestApp.JString "error").
Proof.
  intros H. exists TestApp.error_response. split; [|done].
  apply submit_registration_guard.
  destruct H as [-> | [-> | H]]; auto.
Qed.

(** C3 at a concrete submission: with a still captured in
    REGISTRATION_FROZEN and the name "Bob", the user and the image reach
    the disk and the encodings file is rebuilt, and then the call of
    [auth_service.reload_knowledge] raises [AttributeError]: the gallery in
    memory is the old one, the captured frame is kept and the mode is
    still REGISTRATION_FROZEN. *)
Theorem submit_registration_fails_to_reload :
  exists d',
    TestApp.submit_registration Sample.imread Sample.one_encoding "u2"
      "2025-01-01T00:00:00+00:00"
      (Some "Bob") Sample.kiosk
    = (Raise (AttributeError "reload_knowledge"),
       {| TestApp.app_state := Sample.frozen;
          TestApp.disk := d';
          TestApp.auth_service := Sample.service |}) /\
    metadata_json d' =
      [ {| user_id := "u2"; user_name := "Bob";
           registered_at := "2025-01-01T00:00:00+00:00" |} ] /\
    dataset d' !! "u2" = Some {[ 1%nat := Sample.still ]} /\
    encodings_pickle d' = Some ([[0; 0]%R], ["u2"]) /\
    mode Sample.frozen = REGISTRATION_FROZEN /\
    captured_frame Sample.frozen = Some Sample.still /\
    known_user_ids Sample.service = ["u1"].
Proof.
  eexists. split; [reflexivity|]. split; [reflexivity|]. split_and!.
  - vm_compute. reflexivity.
  - vm_compute. reflexivity.
  - reflexivity.
  - reflexivity.
  - reflexivity.
Qed.

(** ** Reachable states *)

Lemma registration_frame_mode detect config frame s :
  mode s <> AUTHENTICATING ->
  mode (StreamProcessor._handle_registration_frame detect config frame s).2
    <> AUTHENTICATING.
Proof.
  intros Hs. unfold StreamProcessor._handle_registration_frame.
  destruct (detect frame) as [|f fs] eqn:Hd; [done|].
  unfold mbind at 1, M_bind, lift.
  destruct (largest (f :: fs)) as [face|e]; [|done].
  destruct (get_face_properties (location face)) as [fb fa].
  unfold mbind at 1, M_bind.
  destruct (calculate_face_metrics _ fb fa) as [[d r]|e]; [|done].
  unfold mbind, M_bind, get, modify. cbv zeta.
  destruct (bool_decide (mode s = REGISTRATION_SEARCHING) && gate _ _ d r); simpl.
  - done.
  - destruct (bool_decide (mode s = REGISTRATION_FROZEN)); done.
Qed.

Lemma test_app_registration_frame_mode detect frame s :
  mode s <> AUTHENTICATING ->
  mode (TestApp.handle_registration_frame detect frame s).2 <> AUTHENTICATING.
Proof.
  intros Hs. unfold TestApp.handle_registration_frame.
  destruct (detect frame) as [|f fs] eqn:Hd; [done|].
  unfold mbind at 1, M_bind, lift.
  destruct (largest (f :: fs)) as [face|e]; [|done].
  destruct (get_face_properties (location face)) as [fb fa].
  unfold mbind at 1, M_bind.
  destruct (calculate_face_metrics _ fb fa) as [[d r]|e]; [|done].
  unfold mbind, M_bind, get, modify, raise. cbv zeta.
  destruct (bool_decide (mode s = REGISTRATION_SEARCHING) && gate _ _ d r); simpl; done.
Qed.

Lemma stream_pass_authenticating detect auth config camera_frame s :
  mode s = AUTHENTICATING ->
  (StreamProcessor.generate_pass detect auth config camera_frame s).2 = s.
Proof.
  intros Hs. unfold StreamProcessor.generate_pass, StreamProcessor.source_frame,
    StreamProcessor.handle_frame, mbind, M_bind, get, lift.
  rewrite Hs. destruct camera_frame as [frame|]; [|done].
  rewrite Hs.
  destruct (StreamProcessor._handle_authentication_frame _ _ _ _); done.
Qed.

Lemma stream_pass_registration detect auth config camera_frame s :
  mode s <> AUTHENTICATING ->
  mode (StreamProcessor.generate_pass detect auth config camera_frame s).2
    <> AUTHENTICATING.
Proof.
  intros Hs. unfold StreamProcessor.generate_pass, mbind at 1, M_bind at 1, get.
  destruct (StreamProcessor.source_frame s camera_frame) as [frame|]; [|done].
  unfold StreamProcessor.handle_frame, mbind, M_bind, get.
  pose proof (registration_frame_mode detect config frame s Hs) as Hr.
  destruct (mode s) eqn:Hm; [done| |];
    destruct (StreamProcessor._handle_registration_frame detect config frame s)
      as [[out|e] s']; simpl in *; done.
Qed.

Lemma frames_pass_authenticating detect camera_frame s :
  mode s = AUTHENTICATING ->
  (TestApp.generate_frames_pass detect camera_frame s).2 = s.
Proof.
  intros Hs. unfold TestApp.generate_frames_pass, StreamProcessor.source_frame,
    mbind, M_bind, get.
  rewrite Hs. by destruct camera_frame.
Qed.

Lemma frames_pass_registration detect camera_frame s :
  mode s <> AUTHENTICATING ->
  mode (TestApp.generate_frames_pass detect camera_frame s).2 <> AUTHENTICATING.
Proof.
  intros Hs. unfold TestApp.generate_frames_pass, mbind at 1, M_bind at 1, get.
  destruct (StreamProcessor.source_frame s camera_frame) as [frame|]; [|done].
  unfold mbind, M_bind.
  pose proof (test_app_registration_frame_mode detect frame s Hs) as Hr.
  destruct (mode s) eqn:Hm; [done| |];
    destruct (TestApp.handle_registration_frame detect frame s) as [[out|e] s'];
    simpl in *; done.
Qed.

(** When commands and frame passes run one after the other, a session in
    AUTHENTICATING holds no captured frame. *)
Lemma authenticating_holds_no_frame s :
  reachable s -> mode s = AUTHENTICATING -> captured_frame s = None.
Proof.
  induction 1 as [ | s _ _ | s _ _ | s _ _ | s _ IH
                 | imread extract fresh_id now form_name k _ IH
                 | detect auth config camera_frame s _ IH
                 | detect camera_frame s _ IH ]; try done.
  - rewrite submit_registration_app_state. exact IH.
  - destruct (decide (mode s = AUTHENTICATING)) as [Hs|Hs].
    + rewrite stream_pass_authenticating by done. exact IH.
    + intros Hm. by apply stream_pass_registration in Hm.
  - destruct (decide (mode s = AUTHENTICATING)) as [Hs|Hs].
    + rewrite frames_pass_authenticating by done. exact IH.
    + intros Hm. by apply frames_pass_registration in Hm.
Qed.

(** C6, as the code has it.  In AUTHENTICATING, start-registration sets the
    mode to REGISTRATION_SEARCHING and leaves the captured frame as it is;
    in a state reached from the initial one by commands and frame passes
    run one after the other there is no captured frame in AUTHENTICATING,
    so there is none afterwards. *)
Theorem start_registration_effect (s : AppState) :
  mode s = AUTHENTICATING ->
  mode (TestApp.start_registration s).2 = REGISTRATION_SEARCHING /\
  captured_frame (TestApp.start_registration s).2 = captured_frame s /\
  (reachable s -> captured_frame (TestApp.start_registration s).2 = None).
Proof.
  intros Hs. split_and!; [done | done |].
  intros Hr. simpl. by apply authenticating_holds_no_frame.
Qed.

(** C6 as the specification words it fails: a captured frame held in
    AUTHENTICATING is still there after start-registration. *)
Lemma stale_frame_survives_start :
  mode Sample.stale = AUTHENTICATING /\
  captured_frame Sample.stale = Some Sample.still /\
  captured_frame (TestApp.start_registration Sample.stale).2 <> None.
Proof. repeat split; done. Qed.

(** ** The theorems at sample inputs *)

(** The sample face sits on the centre of the guide rectangle and covers
    four sevenths of it: it passes the gate of app.py. *)
Lemma sample_face_ready :
  gate POSITION_THRESHOLD SIZE_THRESHOLD
       (centerDistance GUIDE_BOX_RECT (location Sample.face))
       (sizeRatio GUIDE_BOX_RECT (location Sample.face)) = true.
Proof.
  apply gate_true. unfold centerDistance, sizeRatio, POSITION_THRESHOLD, SIZE_THRESHOLD.
  assert (Ex : ((get_box_center GUIDE_BOX_RECT).1
                - (get_box_center (get_face_properties (location Sample.face)).1).1 = 0)%Z)
    by reflexivity.
  assert (Ey : ((get_box_center GUIDE_BOX_RECT).2
                - (get_box_center (get_face_properties (location Sample.face)).1).2 = 0)%Z)
    by reflexivity.
  assert (Ea : (get_face_properties (location Sample.face)).2 = 90000%Z) by reflexivity.
  assert (Eg : get_box_area GUIDE_BOX_RECT = 157500%Z) by reflexivity.
  rewrite Ex, Ey, Ea, Eg. split.
  - replace (0 * 0 + 0 * 0)%R with 0%R by ring. rewrite sqrt_0. lra.
  - lra.
Qed.

Lemma identity_matcher_verdict_witness :
  length (known_user_ids Sample.service) = length (known_encodings Sample.service) /\
  exists verdict,
    authenticate_face Sample.service Sample.face
      = Ok [ {| name := verdict; box := location Sample.face |} ].
Proof.
  split; [reflexivity|].
  destruct (identity_matcher_verdict Sample.service Sample.face eq_refl) as (v & H & _).
  exists v. exact H.
Defined.

Lemma authenticate_face_single_result_witness :
  length (known_user_ids Sample.service) = length (known_encodings Sample.service) /\
  exists r,
    authenticate_face Sample.service Sample.face = Ok [r] /\
    box r = location Sample.face.
Proof.
  split; [reflexivity|].
  exact (authenticate_face_single_result Sample.service Sample.face eq_refl).
Defined.

Lemma gate_ready_and_feedback_witness :
  get_box_area GUIDE_BOX_RECT <> 0%Z /\
  Sample.one_face Sample.frame <> [] /\
  exists face, largest (Sample.one_face Sample.frame) = Ok face.
Proof.
  assert (Harea : get_box_area GUIDE_BOX_RECT <> 0%Z) by (vm_compute; discriminate).
  assert (Hne : Sample.one_face Sample.frame <> []) by discriminate.
  split; [exact Harea|]. split; [exact Hne|].
  destruct (gate_ready_and_feedback Sample.one_face Sample.service GUIDE_BOX_RECT
              POSITION_THRESHOLD SIZE_THRESHOLD Sample.frame Harea Hne)
    as (face & Hface & _).
  exists face. exact Hface.
Defined.

Lemma gate_monotonic_witness :
  gate 60 0.4
       (centerDistance GUIDE_BOX_RECT (location Sample.face))
       (sizeRatio GUIDE_BOX_RECT (location Sample.face)) = true.
Proof.
  apply (gate_monotonic GUIDE_BOX_RECT (location Sample.face)
           POSITION_THRESHOLD SIZE_THRESHOLD 60 0.4).
  - exact sample_face_ready.
  - unfold POSITION_THRESHOLD. lra.
  - unfold SIZE_THRESHOLD. lra.
Defined.

Lemma auto_freeze_witness :
  mode Sample.searching = REGISTRATION_SEARCHING /\
  Sample.one_face Sample.frame <> [] /\
  exists face, largest (Sample.one_face Sample.frame) = Ok face.
Proof.
  assert (Harea : get_box_area GUIDE_BOX_RECT <> 0%Z) by (vm_compute; discriminate).
  assert (Hne : Sample.one_face Sample.frame <> []) by discriminate.
  split; [reflexivity|]. split; [exact Hne|].
  destruct (auto_freeze Sample.one_face GUIDE_BOX_RECT POSITION_THRESHOLD SIZE_THRESHOLD
              Sample.frame Sample.searching eq_refl Harea Hne)
    as (face & Hface & _).
  exists face. exact Hface.
Defined.

Lemma no_face_frame_witness :
  Sample.no_face Sample.frame = [] /\
  exists out s',
    StreamProcessor.handle_frame Sample.no_face Sample.service Sample.config
      Sample.frame Sample.searching = (Ok out, s') /\
    mode s' = mode Sample.searching.
Proof.
  split; [reflexivity|].
  destruct (no_face_frame Sample.no_face Sample.service Sample.config Sample.frame
              Sample.searching eq_refl) as (out & s' & H & Hm & _).
  exists out, s'. split; [exact H | exact Hm].
Defined.

Lemma recapture_and_cancel_witness :
  mode Sample.frozen = REGISTRATION_FROZEN /\
  mode (TestApp.recapture Sample.frozen).2 = REGISTRATION_SEARCHING /\
  captured_frame (TestApp.recapture Sample.frozen).2 = None /\
  mode (TestApp.cancel_registration Sample.frozen).2 = AUTHENTICATING /\
  captured_frame (TestApp.cancel_registration Sample.frozen).2 = None.
Proof.
  destruct (recapture_and_cancel Sample.frozen) as [Hr Hc].
  destruct (Hr eq_refl) as (H1 & _ & H2).
  destruct (Hc (or_intror eq_refl)) as (H3 & H4).
  split; [reflexivity|]. split; [exact H1|]. split; [exact H2|].
  split; [exact H3 | exact H4].
Defined.

Lemma start_registration_effect_witness :
  mode AppState_init = AUTHENTICATING /\
  reachable AppState_init /\
  mode (TestApp.start_registration AppState_init).2 = REGISTRATION_SEARCHING /\
  captured_frame (TestApp.start_registration AppState_init).2 = None.
Proof.
  destruct (start_registration_effect AppState_init eq_refl) as (H1 & _ & H2).
  split; [reflexivity|]. split; [exact reach_init|].
  split; [exact H1 | exact (H2 reach_init)].
Defined.

Lemma submit_registration_rejected_witness :
  exists response,
    TestApp.submit_registration Sample.imread Sample.one_encoding "u2"
      "2025-01-01T00:00:00+00:00"
      (Some EmptyString) Sample.kiosk = (Ok response, Sample.kiosk) /\
    TestApp.status_code response = 400%Z.
Proof.
  destruct (submit_registration_rejected Sample.imread Sample.one_encoding "u2"
              "2025-01-01T00:00:00+00:00" (Some EmptyString) Sample.kiosk
              (or_intror (or_introl eq_refl))) as (response & H & Hc & _).
  exists response. split; [exact H | exact Hc].
Defined.

(** * Further properties of the code *)

(** ** authenticate_frame *)

Lemma first_minimum_unique l i d j d' :
  first_minimum l i d -> first_minimum l j d' -> i = j /\ d = d'.
Proof.
  intros (Hi & Hall & Hfirst) (Hj & Hall' & Hfirst').
  assert (Hd : d = d').
  { pose proof (Hall _ _ Hj). pose proof (Hall' _ _ Hi). lra. }
  split; [|done]. subst d'.
  destruct (Nat.lt_trichotomy i j) as [Hlt | [-> | Hlt]]; [|done|].
  - pose proof (Hfirst' _ _ Hlt Hi). lra.
  - pose proof (Hfirst _ _ Hlt Hj). lra.
Qed.

(** One turn of the loop on a non-empty, index-aligned gallery. *)
Lemma next_name_spec self probe :
  known_encodings self <> [] ->
  length (known_user_ids self) = length (known_encodings self) ->
  exists i d uid,
    first_minimum (face_distance (known_encodings self) probe) i d /\
    known_user_ids self !! i = Some uid /\
    forall name,
      next_name self name probe =
        Ok (if Np.Rleb d (tolerance self)
            then Py.dict_get (user_id_to_name_map self) uid Unknown
            else name).
Proof.
  intros Hne Hlen. unfold next_name.
  set (ds := face_distance (known_encodings self) probe).
  assert (Hds : length ds = length (known_encodings self))
    by (unfold ds, face_distance; apply length_fmap).
  assert (Hnil : ds <> []).
  { intros E. rewrite E in Hds. destruct (known_encodings self); simpl in Hds; done. }
  destruct (argmin_spec ds Hnil) as (i & d & Harg & Hmin).
  assert (Hi : (i < length (known_user_ids self))%nat).
  { rewrite Hlen, <- Hds. apply lookup_lt_is_Some. destruct Hmin as [-> _]. eauto. }
  destruct (lookup_lt_is_Some_2 _ _ Hi) as [uid Huid].
  exists i, d, uid. split_and!; [done | done |]. intros name.
  destruct ds as [|d0 ds'] eqn:Eds; [done|].
  change (0 <? length (d0 :: ds'))%nat with true. cbv iota.
  rewrite Harg. destruct Hmin as [Hd _].
  unfold Py.index. simpl. rewrite Hd. simpl.
  destruct (Np.Rleb d (tolerance self)); [|done].
  by rewrite Huid.
Qed.

Lemma matched_name_next_name self probe :
  matched_name self probe = next_name self Unknown probe.
Proof. reflexivity. Qed.

Lemma recognize_spec self :
  known_encodings self <> [] ->
  length (known_user_ids self) = length (known_encodings self) ->
  forall faces name0 acc,
  exists new,
    recognize self name0 acc faces = Ok (acc ++ new) /\
    length new = length faces /\
    forall k face, faces !! k = Some face ->
      exists r i d uid,
        new !! k = Some r /\
        box r = location face /\
        first_minimum (face_distance (known_encodings self) (encoding face)) i d /\
        known_user_ids self !! i = Some uid /\
        name r = (if Np.Rleb d (tolerance self)
                  then Py.dict_get (user_id_to_name_map self) uid Unknown
                  else inherited_name name0 new k).
Proof.
  intros Hne Hlen. induction faces as [|f faces IH]; intros name0 acc.
  - exists []. rewrite app_nil_r. split_and!; [done | done |].
    intros k face Hk. by rewrite lookup_nil in Hk.
  - simpl. destruct (next_name_spec self (encoding f) Hne Hlen) as (i & d & uid & Hmin & Huid & Hn).
    rewrite Hn. simpl.
    set (n1 := if Np.Rleb d (tolerance self)
               then Py.dict_get (user_id_to_name_map self) uid Unknown else name0).
    destruct (IH n1 (acc ++ [ {| name := n1; box := location f |} ]))
      as (new & Hrec & Hlen' & Hall).
    exists ({| name := n1; box := location f |} :: new).
    split_and!.
    + rewrite Hrec. by rewrite <- app_assoc.
    + simpl. by rewrite Hlen'.
    + intros [|k] face Hk; simpl in Hk.
      * injection Hk as <-. exists {| name := n1; box := location f |}, i, d, uid.
        split_and!; try done.
      * destruct (Hall k face Hk) as (r & i' & d' & uid' & Hr & Hbox & Hmin' & Huid' & Hname).
        exists r, i', d', uid'. split_and!; try done.
        rewrite Hname. destruct (Np.Rleb d' (tolerance self)); [done|].
        destruct k as [|k]; simpl; [done|].
        destruct (new !! k) as [prev|] eqn:Hprev; simpl; [done|].
        apply lookup_ge_None in Hprev. apply lookup_lt_Some in Hk. lia.
Qed.


(** With a gallery, [authenticate_frame] is its loop followed by its
    closing log call, which a logger enabled for INFO does not survive. *)
Lemma authenticate_frame_loop (info_enabled : bool)
    (detect : Frame -> list FaceData) (self : AuthenticationService) (frame : Frame)
    (results : list MatchResult) :
  known_encodings self <> [] ->
  recognize self Unknown [] (detect frame) = Ok results ->
  authenticate_frame info_enabled detect self frame
  = if info_enabled then Raise KeyError else Ok results.
Proof.
  intros Hne Hrec. unfold authenticate_frame.
  destruct (known_encodings self) as [|e0 es]; [done|].
  rewrite Hrec. by destruct info_enabled.
Qed.

(** X1.  On a non-empty, index-aligned gallery the loop of
    [authenticate_frame] makes one result per detected face, in detection
    order and with the face's location as box.  A face whose least distance
    is within the tolerance gets the result [authenticate_face] gives it; a
    face beyond the tolerance gets the name of the result before it
    (["Unknown"] when it is the first), because [name] is not reset between
    faces.  The method returns these results only when its logger is not
    enabled for INFO: otherwise the closing log call, whose [extra] carries
    the key ["name"], raises [KeyError], whatever the frame shows. *)
Theorem authenticate_frame_results
    (detect : Frame -> list FaceData) (self : AuthenticationService) (frame : Frame) :
  known_encodings self <> [] ->
  length (known_user_ids self) = length (known_encodings self) ->
  authenticate_frame true detect self frame = Raise KeyError /\
  exists results,
    authenticate_frame false detect self frame = Ok results /\
    length results = length (detect frame) /\
    forall k face, detect frame !! k = Some face ->
      exists r i d,
        results !! k = Some r /\
        box r = location face /\
        first_minimum (face_distance (known_encodings self) (encoding face)) i d /\
        ((d <= tolerance self)%R -> authenticate_face self face = Ok [r]) /\
        ((d > tolerance self)%R -> k = 0%nat -> name r = Unknown) /\
        ((d > tolerance self)%R ->
           forall k' prev, k = S k' -> results !! k' = Some prev -> name r = name prev).
Proof.
  intros Hne Hlen.
  destruct (recognize_spec self Hne Hlen (detect frame) Unknown [])
    as (results & Hrec & Hlen' & Hall).
  simpl in Hrec.
  split; [exact (authenticate_frame_loop true detect self frame results Hne Hrec)|].
  exists results.
  split; [exact (authenticate_frame_loop false detect self frame results Hne Hrec)|].
  split; [done|].
  intros k face Hk.
  destruct (Hall k face Hk) as (r & i & d & uid & Hr & Hbox & Hmin & Huid & Hname).
  exists r, i, d. split_and!; try done.
  - intros Hle. apply Rleb_true in Hle. rewrite Hle in Hname.
    unfold authenticate_face. rewrite matched_name_next_name.
    destruct (next_name_spec self (encoding face) Hne Hlen)
      as (i' & d' & uid' & Hmin' & Huid' & Hn).
    destruct (first_minimum_unique _ _ _ _ _ Hmin Hmin') as [<- <-].
    rewrite Hn, Hle. simpl. do 2 f_equal.
    destruct r as [rn rb]. simpl in *. subst.
    replace uid' with uid by congruence. reflexivity.
  - intros Hgt -> . apply Rleb_false in Hgt. by rewrite Hgt in Hname.
  - intros Hgt k' prev -> Hprev. apply Rleb_false in Hgt. rewrite Hgt in Hname.
    simpl in Hname. by rewrite Hprev in Hname.
Qed.

(** ** Enrolment on disk *)

Lemma write_images_from (images : list Frame) : forall (off : nat) (dir : gmap nat Frame) k,
  foldl (fun dir '(i, img) => <[S i := img]> dir) dir (imap (fun i x => ((off + i)%nat, x)) images)
    !! k
  = if bool_decide (off < k <= off + length images)%nat
    then images !! (k - S off)%nat
    else dir !! k.
Proof.
  induction images as [|img images IH]; intros off dir k.
  - simpl. case_bool_decide; [lia | done].
  - cbn [imap foldl]. 
    assert (Himap : imap ((fun i x => ((off + i)%nat, x)) ∘ S) images
                    = imap (fun i x => ((S off + i)%nat, x)) images).
    { apply imap_ext. intros i x _. simpl. f_equal. lia. }
    rewrite Himap, IH. rewrite Nat.add_0_r.
    repeat case_bool_decide; simpl in *; try lia.
    + destruct (k - S off)%nat as [|n] eqn:E; [lia|].
      simpl. f_equal. lia.
    + assert (k = S off) as -> by lia. rewrite lookup_insert_eq.
      by rewrite Nat.sub_diag.
    + rewrite lookup_insert_ne by lia. done.
Qed.

(** File [i+1] of the directory holds image [i]; the other files are kept. *)
Lemma write_images_lookup dir images k :
  DataManager.write_images dir images !! k
  = if bool_decide (0 < k <= length images)%nat
    then images !! (k - 1)%nat
    else dir !! k.
Proof.
  unfold DataManager.write_images.
  pose proof (write_images_from images 0 dir k) as H.
  simpl in H. exact H.
Qed.

(** X2.  [register_new_user] refuses an empty name or an empty list of images
    with [ValueError] and writes nothing. *)
Theorem register_new_user_rejects
    (fresh_id now name : string) (images : list Frame) (d : Disk) :
  name = EmptyString \/ images = [] ->
  RegistrationService.register_new_user fresh_id now name images d
  = (Raise ValueError, d).
Proof.
  intros [-> | ->]; unfold RegistrationService.register_new_user; [done|].
  by rewrite orb_true_r.
Qed.

(** X3.  With a name and at least one image [register_new_user] returns the
    fresh id, appends one record with that id, the name and the time stamp
    to the metadata (keeping the earlier records in order), stores image
    [i] as file [i+1] of the user's directory, and leaves the directories
    of the other users and the encodings file as they were. *)
Theorem register_new_user_effect
    (fresh_id now name : string) (images : list Frame) (d : Disk) :
  name <> EmptyString ->
  images <> [] ->
  exists d',
    RegistrationService.register_new_user fresh_id now name images d
      = (Ok fresh_id, d') /\
    metadata_json d' =
      metadata_json d
      ++ [ {| user_id := fresh_id; user_name := name; registered_at := now |} ] /\
    (forall i img, images !! i = Some img ->
       exists dir, dataset d' !! fresh_id = Some dir /\ dir !! S i = Some img) /\
    (forall other, other <> fresh_id -> dataset d' !! other = dataset d !! other) /\
    encodings_pickle d' = encodings_pickle d.
Proof.
  intros Hname Himages. unfold RegistrationService.register_new_user.
  apply String.eqb_neq in Hname. rewrite Hname.
  assert (Hlen : bool_decide (length images = 0%nat) = false).
  { apply bool_decide_eq_false. destruct images; simpl; [done | lia]. }
  rewrite Hlen. simpl. eexists. split; [reflexivity|]. simpl.
  split_and!; [done | | | done].
  - intros i img Hi. eexists. rewrite lookup_insert_eq. split; [reflexivity|].
    rewrite write_images_lookup.
    apply lookup_lt_Some in Hi as Hlt.
    rewrite bool_decide_eq_true_2 by lia.
    simpl. by rewrite Nat.sub_0_r.
  - intros other Hne. by rewrite lookup_insert_ne.
Qed.

(** ** Building the encodings *)

Lemma encode_images_spec imread extract uid image_paths : forall acc,
  exists encs,
    EncodingService.encode_images imread extract uid image_paths acc
      = (acc.1 ++ encs, acc.2 ++ replicate (length encs) uid) /\
    (forall enc, enc ∈ encs ->
       exists path image,
         path ∈ image_paths /\ imread path = Some image /\ extract image = [enc]) /\
    ((forall path image, path ∈ image_paths -> imread path = Some image ->
        length (extract image) <> 1%nat) -> encs = []).
Proof.
  unfold EncodingService.encode_images.
  induction image_paths as [|path image_paths IH]; intros acc; simpl.
  - exists []. rewrite !app_nil_r. split_and!; [by destruct acc | | done].
    intros enc H. by apply elem_of_nil in H.
  - assert (Hskip : exists encs,
               foldl (fun acc image_path =>
                        match imread image_path with
                        | None => acc
                        | Some image =>
                            match extract image with
                            | [enc] => (acc.1 ++ [enc], acc.2 ++ [uid])
                            | _ => acc
                            end
                        end) acc image_paths
               = (acc.1 ++ encs, acc.2 ++ replicate (length encs) uid) /\
               (forall enc, enc ∈ encs ->
                  exists p image,
                    p ∈ path :: image_paths /\ imread p = Some image /\
                    extract image = [enc]) /\
               ((forall p image, p ∈ path :: image_paths -> imread p = Some image ->
                   length (extract image) <> 1%nat) -> encs = [])).
    { destruct (IH acc) as (encs & -> & Hin & Hnone). exists encs. split_and!; [done | |].
      - intros e H. destruct (Hin e H) as (p & im & ? & ? & ?).
        exists p, im. split_and!; [by right | done | done].
      - intros H. apply Hnone. intros p im Hp. apply H. by right. }
    destruct (imread path) as [image|] eqn:Hread; [|exact Hskip].
    destruct (extract image) as [|enc [|enc' rest]] eqn:He; [exact Hskip | | exact Hskip].
    clear Hskip.
    destruct (IH (acc.1 ++ [enc], acc.2 ++ [uid])) as (encs & -> & Hin & Hnone).
    exists (enc :: encs). simpl. rewrite <- !app_assoc. split_and!; [done | |].
    + intros e [-> | H]%elem_of_cons.
      * exists path, image. split_and!; [by left | done | done].
      * destruct (Hin e H) as (p & im & ? & ? & ?).
        exists p, im. split_and!; [by right | done | done].
    + intros H. exfalso. apply (H path image); [by left | done | by rewrite He].
Qed.

(** The files of a user's directory, as the inner loop meets them. *)
Lemma image_paths_files (d : Disk) (uid : string) (path : Frame) :
  path ∈ (map_to_list (default ∅ (dataset d !! uid))).*2 ->
  exists dir n, dataset d !! uid = Some dir /\ dir !! n = Some path.
Proof.
  intros ([n p] & -> & Hin)%list_elem_of_fmap. apply elem_of_map_to_list in Hin.
  destruct (dataset d !! uid) as [dir|] eqn:Hdir; simpl in Hin.
  - by exists dir, n.
  - by rewrite lookup_empty in Hin.
Qed.

Lemma encode_users_spec imread extract d metadata : forall acc,
  exists encs ids,
    EncodingService.encode_users imread extract d metadata acc
      = (acc.1 ++ encs, acc.2 ++ ids) /\
    length encs = length ids /\
    (forall id, id ∈ ids -> exists u, u ∈ metadata /\ user_id u = id) /\
    ((forall u dir n path image,
        u ∈ metadata -> dataset d !! user_id u = Some dir -> dir !! n = Some path ->
        imread path = Some image -> length (extract image) <> 1%nat) ->
     encs = []).
Proof.
  induction metadata as [|u metadata IH]; intros acc; simpl.
  - exists [], []. rewrite !app_nil_r. split_and!; [by destruct acc | done | | done].
    intros id H. by apply elem_of_nil in H.
  - destruct (encode_images_spec imread extract (user_id u)
                (map_to_list (default ∅ (dataset d !! user_id u))).*2 acc)
      as (encs1 & -> & _ & Hnone1).
    destruct (IH (acc.1 ++ encs1, acc.2 ++ replicate (length encs1) (user_id u)))
      as (encs2 & ids2 & -> & Hlen & Hin & Hnone2).
    exists (encs1 ++ encs2), (replicate (length encs1) (user_id u) ++ ids2).
    simpl. rewrite <- !app_assoc. split_and!; [done | | |].
    + rewrite !length_app, length_replicate. lia.
    + intros id [H | H]%elem_of_app.
      * apply elem_of_replicate in H as [-> _]. exists u. split; [by left | done].
      * destruct (Hin id H) as (u' & ? & ?). exists u'. split; [by right | done].
    + intros H. rewrite Hnone1, Hnone2; [done | |].
      * intros v dir n path image Hv. apply H. by right.
      * intros path image Hpath.
        destruct (image_paths_files d (user_id u) path Hpath) as (dir & n & Hdir & Hn).
        apply (H u dir n path image); [by left | done | done].
Qed.

Lemma encode_users_snoc imread extract d metadata u acc :
  EncodingService.encode_users imread extract d (metadata ++ [u]) acc
  = EncodingService.encode_images imread extract (user_id u)
      (map_to_list (default ∅ (dataset d !! user_id u))).*2
      (EncodingService.encode_users imread extract d metadata acc).
Proof.
  revert acc. induction metadata as [|v metadata IH]; intros acc; simpl; [done|].
  by rewrite IH.
Qed.

(** X4.  [build_encodings_from_dataset] never raises and never touches the
    metadata or the images.  Either it leaves the encodings file as it was,
    or it writes a non-empty list of encodings with a list of user ids of
    the same length, every one of them the id of a user in the metadata. *)
Theorem build_encodings_gallery
    (imread : Frame -> option Frame) (extract : Frame -> list (list R)) (d : Disk) :
  exists d',
    EncodingService.build_encodings_from_dataset imread extract d = (Ok tt, d') /\
    metadata_json d' = metadata_json d /\
    dataset d' = dataset d /\
    (encodings_pickle d' = encodings_pickle d \/
     exists encs ids,
       encodings_pickle d' = Some (encs, ids) /\
       encs <> [] /\
       length encs = length ids /\
       forall id, id ∈ ids -> exists u, u ∈ metadata_json d /\ user_id u = id).
Proof.
  unfold EncodingService.build_encodings_from_dataset, DataManager.read_metadata,
    DataManager.save_encodings, mbind, M_bind, get, mret, M_ret, modify.
  destruct (metadata_json d) as [|u us] eqn:Hmd.
  { exists d. rewrite Hmd. split_and!; try done. by left. }
  destruct (encode_users_spec imread extract d (u :: us) ([], []))
    as (encs & ids & Henc & Hlen & Hin & _).
  rewrite Henc. simpl.
  destruct encs as [|enc encs].
  - exists d. rewrite Hmd. split_and!; try done. by left.
  - eexists. split; [reflexivity|]. simpl. split_and!; try done.
    right. exists (enc :: encs), ids. split_and!; done.
Qed.

(** X5.  When no image file of the data set that can be read shows exactly
    one face (in particular when there is no user or no image),
    [build_encodings_from_dataset] writes nothing: an encodings file built
    earlier stays in place. *)
Theorem build_encodings_nothing_to_save
    (imread : Frame -> option Frame) (extract : Frame -> list (list R)) (d : Disk) :
  (forall u dir n path image,
     u ∈ metadata_json d ->
     dataset d !! user_id u = Some dir ->
     dir !! n = Some path ->
     imread path = Some image ->
     length (extract image) <> 1%nat) ->
  EncodingService.build_encodings_from_dataset imread extract d = (Ok tt, d).
Proof.
  intros Hnone.
  unfold EncodingService.build_encodings_from_dataset, DataManager.read_metadata,
    mbind, M_bind, get, mret, M_ret.
  destruct (metadata_json d) as [|u us] eqn:Hmd; [done|].
  destruct (encode_users_spec imread extract d (u :: us) ([], []))
    as (encs & ids & Henc & Hlen & _ & Hnil).
  rewrite Henc. rewrite (Hnil Hnone) in *. simpl. done.
Qed.

(** ** Loading the gallery *)

Lemma name_map_snoc (metadata : list UserRecord) u :
  foldl (fun m user => <[user_id user := user_name user]> m) (∅ : gmap string string)
        (metadata ++ [u])
  = <[user_id u := user_name u]>
      (foldl (fun m user => <[user_id user := user_name user]> m) ∅ metadata).
Proof. by rewrite foldl_app. Qed.

Lemma name_map_lookup (metadata : list UserRecord) id :
  foldl (fun m user => <[user_id user := user_name user]> m) (∅ : gmap string string)
        metadata !! id
  = user_name <$> last (filter (fun u => user_id u = id) metadata).
Proof.
  induction metadata as [|u metadata IH] using rev_ind; [done|].
  rewrite name_map_snoc, filter_app.
  destruct (decide (user_id u = id)) as [<- | Hne].
  - rewrite lookup_insert_eq. rewrite filter_cons_True by done.
    rewrite filter_nil. by rewrite last_snoc.
  - rewrite lookup_insert_ne by done. rewrite filter_cons_False by done.
    rewrite filter_nil, app_nil_r. exact IH.
Qed.

Lemma filter_none {A} (P : A -> Prop) `{!forall x, Decision (P x)} (l : list A) :
  (forall x, x ∈ l -> ~ P x) -> filter P l = [].
Proof.
  induction l as [|x l IH]; intros Hno; [done|].
  rewrite filter_cons_False by (apply Hno; by left).
  apply IH. intros y Hy. apply Hno. by right.
Qed.

(** X6.  The name map [_load_knowledge] builds resolves a user id to the name
    of the last metadata record with that id, and has no entry for an id
    that no record carries. *)
Theorem load_knowledge_name_map (d : Disk) (self : AuthenticationService) :
  (forall before u after,
     metadata_json d = before ++ u :: after ->
     (forall v, v ∈ after -> user_id v <> user_id u) ->
     user_id_to_name_map (_load_knowledge d self) !! user_id u = Some (user_name u)) /\
  (forall id,
     (forall u, u ∈ metadata_json d -> user_id u <> id) ->
     user_id_to_name_map (_load_knowledge d self) !! id = None).
Proof.
  assert (Hmap : user_id_to_name_map (_load_knowledge d self)
                 = foldl (fun m user => <[user_id user := user_name user]> m) ∅
                         (metadata_json d)).
  { unfold _load_knowledge. by destruct (encodings_pickle d) as [[? ?]|]. }
  rewrite Hmap. split.
  - intros before u after -> Hafter. rewrite name_map_lookup.
    rewrite filter_app, filter_cons_True by done.
    assert (Hnil : filter (fun v => user_id v = user_id u) after = []).
    { apply filter_none. intros v Hv. by apply Hafter. }
    rewrite Hnil. by rewrite last_snoc.
  - intros id Hnone. rewrite name_map_lookup.
    assert (Hnil : filter (fun v => user_id v = id) (metadata_json d) = []).
    { apply filter_none. intros v Hv. by apply Hnone. }
    by rewrite Hnil.
Qed.

(** X7.  A service constructed when there is no encodings file has an empty
    gallery: [authenticate_face] answers ["Unknown"] for every face and
    [authenticate_frame] returns no result. *)
Theorem init_without_encodings
    (info_enabled : bool) (detect : Frame -> list FaceData) (d : Disk) (tol : R)
    (face_data : FaceData) (frame : Frame) :
  encodings_pickle d = None ->
  known_encodings (AuthenticationService_init d tol) = [] /\
  authenticate_face (AuthenticationService_init d tol) face_data
    = Ok [ {| name := Unknown; box := location face_data |} ] /\
  authenticate_frame info_enabled detect (AuthenticationService_init d tol) frame
    = Ok [].
Proof.
  intros Hnone.
  assert (Hk : known_encodings (AuthenticationService_init d tol) = []).
  { unfold AuthenticationService_init, _load_knowledge. by rewrite Hnone. }
  split_and!; [done | |].
  - unfold authenticate_face. by rewrite matched_name_empty.
  - unfold authenticate_frame. by rewrite Hk.
Qed.

(** ** From enrolment to the gallery *)

Lemma write_images_one (frame : Frame) :
  (map_to_list (DataManager.write_images ∅ [frame])).*2 = [frame].
Proof.
  unfold DataManager.write_images. simpl.
  rewrite insert_empty, map_to_list_singleton. done.
Qed.

(** X8.  Register one image under a fresh id, rebuild the encodings and
    construct the service from the disk.  When the image that is read back
    from the stored file (not the frame that was written: the .jpg round
    trip is lossy) shows exactly one face, the gallery of the service ends
    with the encoding of the image read back, under the fresh id, its two
    lists have the same length, and the name map resolves the fresh id to
    the registered name. *)
Theorem enrolment_reaches_gallery
    (imread : Frame -> option Frame) (extract : Frame -> list (list R))
    (fresh_id now name : string)
    (frame stored : Frame) (enc : list R) (tol : R) (d : Disk) :
  name <> EmptyString ->
  dataset d !! fresh_id = None ->
  imread frame = Some stored ->
  extract stored = [enc] ->
  exists d1 d2,
    RegistrationService.register_new_user fresh_id now name [frame] d
      = (Ok fresh_id, d1) /\
    EncodingService.build_encodings_from_dataset imread extract d1 = (Ok tt, d2) /\
    let service := AuthenticationService_init d2 tol in
    last (known_encodings service) = Some enc /\
    last (known_user_ids service) = Some fresh_id /\
    length (known_user_ids service) = length (known_encodings service) /\
    user_id_to_name_map service !! fresh_id = Some name.
Proof.
  intros Hname Hfresh Hread Hextract.
  set (u := {| user_id := fresh_id; user_name := name; registered_at := now |}).
  set (d1 := {| metadata_json := metadata_json d ++ [u];
                dataset := <[fresh_id := DataManager.write_images ∅ [frame]]> (dataset d);
                encodings_pickle := encodings_pickle d |}).
  assert (Hreg : RegistrationService.register_new_user fresh_id now name [frame] d
                 = (Ok fresh_id, d1)).
  { unfold RegistrationService.register_new_user.
    apply String.eqb_neq in Hname. rewrite Hname.
    unfold DataManager.save_images_for_user, DataManager.write_metadata,
      DataManager.read_metadata, mbind, M_bind, get, modify, mret, M_ret.
    rewrite bool_decide_eq_false_2 by (simpl; lia).
    cbn [orb]. cbv beta. cbn [metadata_json dataset encodings_pickle].
    unfold d1. by rewrite Hfresh. }
  destruct (encode_users_spec imread extract d1 (metadata_json d) ([], []))
    as (encs & ids & Henc & Hlen & _ & _).
  simpl in Henc.
  exists d1, {| metadata_json := metadata_json d1;
                dataset := dataset d1;
                encodings_pickle := Some (encs ++ [enc], ids ++ [fresh_id]) |}.
  split; [exact Hreg|]. split.
  - unfold EncodingService.build_encodings_from_dataset, DataManager.read_metadata,
      DataManager.save_encodings, mbind, M_bind, get, mret, M_ret, modify.
    cbn [metadata_json d1].
    destruct (metadata_json d ++ [u]) as [|u0 us] eqn:Hmd.
    { by destruct (metadata_json d). }
    rewrite <- Hmd. rewrite encode_users_snoc. rewrite Henc.
    cbn [user_id u dataset d1]. rewrite lookup_insert_eq. cbn [default].
    unfold Datatypes.id. rewrite write_images_one.
    unfold EncodingService.encode_images. simpl. rewrite Hread, Hextract. simpl.
    destruct (encs ++ [enc]) as [|e0 es] eqn:Hencs.
    { by destruct encs. }
    by rewrite Hmd.
  - unfold AuthenticationService_init, _load_knowledge. simpl.
    split_and!.
    + apply last_snoc.
    + apply last_snoc.
    + rewrite !length_app. simpl. lia.
    + rewrite name_map_snoc. apply lookup_insert_eq.
Qed.

(** ** The largest face *)

Lemma max_from_spec {A} (key : A -> Z) (l : list A) : forall best,
  (Py.max_from key best l = best /\ forall j x, l !! j = Some x -> (key x <= key best)%Z)
  \/ exists k y,
       Py.max_from key best l = y /\ l !! k = Some y /\ (key best < key y)%Z /\
       (forall j x, l !! j = Some x -> (key x <= key y)%Z) /\
       (forall j x, (j < k)%nat -> l !! j = Some x -> (key x < key y)%Z).
Proof.
  induction l as [|x t IH]; intros best; simpl.
  - left. split; [done|]. intros j y Hj. by rewrite lookup_nil in Hj.
  - destruct (key best <? key x)%Z eqn:Hlt.
    + apply Z.ltb_lt in Hlt. right.
      destruct (IH x) as [[-> Hall] | (k & y & <- & Hk & Hy & Hall & Hfirst)].
      * exists 0%nat, x. split_and!; [done | done | done | | intros; lia].
        intros [|j] z Hj; simpl in Hj; [injection Hj as <-; lia | eauto].
      * exists (S k), (Py.max_from key x t). split_and!; [done | done | lia | |].
        -- intros [|j] z Hj; simpl in Hj; [injection Hj as <-; lia | eauto].
        -- intros [|j] z Hlt' Hj; simpl in Hj; [injection Hj as <-; lia|].
           apply (Hfirst j); [lia | done].
    + apply Z.ltb_ge in Hlt.
      destruct (IH best) as [[-> Hall] | (k & y & <- & Hk & Hy & Hall & Hfirst)].
      * left. split; [done|].
        intros [|j] z Hj; simpl in Hj; [injection Hj as <-; lia | eauto].
      * right. exists (S k), (Py.max_from key best t). split_and!; [done | done | lia | |].
        -- intros [|j] z Hj; simpl in Hj; [injection Hj as <-; lia | eauto].
        -- intros [|j] z Hlt' Hj; simpl in Hj; [injection Hj as <-; lia|].
           apply (Hfirst j); [lia | done].
Qed.

(** X9.  Of the detected faces the handlers pick one with the greatest box
    area, and among faces of that area the first in detection order. *)
Theorem largest_is_first_maximum (faces : list FaceData) :
  faces <> [] ->
  exists k face,
    largest faces = Ok face /\
    faces !! k = Some face /\
    (forall j f, faces !! j = Some f -> (face_area_key f <= face_area_key face)%Z) /\
    (forall j f, (j < k)%nat -> faces !! j = Some f ->
                 (face_area_key f < face_area_key face)%Z).
Proof.
  destruct faces as [|x t]; [done|]. intros _. unfold largest. simpl.
  destruct (max_from_spec face_area_key t x)
    as [[-> Hall] | (k & y & <- & Hk & Hy & Hall & Hfirst)].
  - exists 0%nat, x. split_and!; [done | done | | intros; lia].
    intros [|j] z Hj; simpl in Hj; [injection Hj as <-; lia | eauto].
  - exists (S k), (Py.max_from face_area_key x t). split_and!; [done | done | |].
    + intros [|j] z Hj; simpl in Hj; [injection Hj as <-; lia | eauto].
    + intros [|j] z Hlt' Hj; simpl in Hj; [injection Hj as <-; lia|].
      apply (Hfirst j); [lia | done].
Qed.

(** ** Drawing *)


(** ** Geometry *)

(** X11.  A face whose box is the guide rectangle itself is at distance 0 with
    size ratio 1, so it passes the gate for every position threshold >= 0
    and every size threshold <= 1. *)
Theorem face_filling_guide_is_ready (x y w h : Z) (pT sT : R) :
  get_box_area (x, y, w, h) <> 0%Z ->
  (0 <= pT)%R ->
  (sT <= 1)%R ->
  let loc : Location := (y, (x + w)%Z, (y + h)%Z, x) in
  centerDistance (x, y, w, h) loc = 0%R /\
  sizeRatio (x, y, w, h) loc = 1%R /\
  gate pT sT (centerDistance (x, y, w, h) loc) (sizeRatio (x, y, w, h) loc) = true.
Proof.
  intros Harea HpT HsT loc.
  assert (Hd : centerDistance (x, y, w, h) loc = 0%R).
  { unfold centerDistance, loc. simpl.
    replace (x + w `div` 2 - (x + (x + w - x) `div` 2))%Z with 0%Z
      by (replace (x + w - x)%Z with w by lia; lia).
    replace (y + h `div` 2 - (y + (y + h - y) `div` 2))%Z with 0%Z
      by (replace (y + h - y)%Z with h by lia; lia).
    replace (0 * 0 + 0 * 0)%R with 0%R by ring. apply sqrt_0. }
  assert (Hr : sizeRatio (x, y, w, h) loc = 1%R).
  { unfold sizeRatio, loc. simpl in *.
    replace ((x + w - x) * (y + h - y))%Z with (w * h)%Z by lia.
    apply Rdiv_diag. by apply not_0_IZR. }
  split_and!; [done | done |].
  rewrite Hd, Hr. apply gate_true. lra.
Qed.

(** X12.  With a guide rectangle of zero area, every frame that shows a face
    makes the handler raise [ZeroDivisionError], in every mode, before the
    session state is touched. *)
Theorem zero_area_guide_raises
    (detect : Frame -> list FaceData) (auth : AuthenticationService)
    (config : Config) (frame : Frame) (s : AppState) :
  get_box_area (cfg_GUIDE_BOX_RECT config) = 0%Z ->
  detect frame <> [] ->
  StreamProcessor.handle_frame detect auth config frame s
  = (Raise ZeroDivisionError, s).
Proof.
  intros Harea Hne.
  destruct (largest_spec _ Hne) as (face & Hface & _).
  assert (Hm : forall fb fa,
             calculate_face_metrics (cfg_GUIDE_BOX_RECT config) fb fa
             = Raise ZeroDivisionError).
  { intros fb fa. unfold calculate_face_metrics. by rewrite Harea. }
  assert (Ha : StreamProcessor._handle_authentication_frame detect auth config frame
               = Raise ZeroDivisionError).
  { unfold StreamProcessor._handle_authentication_frame.
    destruct (detect frame) as [|f fs] eqn:Hd; [done|].
    rewrite Hface. simpl.
    destruct (get_face_properties (location face)) as [fb fa]. by rewrite Hm. }
  assert (Hr : StreamProcessor._handle_registration_frame detect config frame s
               = (Raise ZeroDivisionError, s)).
  { unfold StreamProcessor._handle_registration_frame.
    destruct (detect frame) as [|f fs] eqn:Hd; [done|].
    unfold mbind at 1, M_bind, lift. rewrite Hface.
    destruct (get_face_properties (location face)) as [fb fa].
    unfold mbind at 1, M_bind. by rewrite Hm. }
  unfold StreamProcessor.handle_frame, mbind, M_bind, get, lift.
  destruct (mode s); by rewrite ?Ha, ?Hr.
Qed.

(** ** Frame passes and the session *)

(** X13.  While the session is frozen on a still that shows a face, a pass of
    [generate] does not look at the camera: whatever the camera returned,
    it yields the still with the "will be enrolled" message on its largest
    face and leaves the session state as it was. *)
Theorem frozen_pass_stable
    (detect : Frame -> list FaceData) (auth : AuthenticationService)
    (config : Config) (camera_frame : option Frame) (s : AppState) (still : Frame) :
  mode s = REGISTRATION_FROZEN ->
  captured_frame s = Some still ->
  detect still <> [] ->
  get_box_area (cfg_GUIDE_BOX_RECT config) <> 0%Z ->
  exists face,
    largest (detect still) = Ok face /\
    StreamProcessor.generate_pass detect auth config camera_frame s
    = (Ok (Some (draw_face_box still (location face) MSG_FROZEN GREEN)), s).
Proof.
  intros Hm Hc Hne Harea.
  destruct (largest_spec _ Hne) as (face & Hface & _).
  exists face. split; [done|].
  unfold StreamProcessor.generate_pass, StreamProcessor.source_frame,
    mbind at 1, M_bind at 1, get.
  rewrite Hm, Hc.
  unfold mbind at 1, M_bind at 1, StreamProcessor.handle_frame, mbind at 1, M_bind at 1, get.
  rewrite Hm.
  rewrite (stream_registration_face detect config still face s Hne Hface Harea).
  cbv zeta. rewrite Hm. reflexivity.
Qed.

(** The session state a registration handler can leave behind, whether it
    returns or raises. *)
Lemma registration_frame_state detect config frame s :
  handler_outcome s frame
    (StreamProcessor._handle_registration_frame detect config frame s).2.
Proof.
  unfold StreamProcessor._handle_registration_frame.
  destruct (detect frame) as [|f fs] eqn:Hd; [unfold handler_outcome; simpl; auto|].
  unfold mbind at 1, M_bind, lift.
  destruct (largest (f :: fs)) as [face|e]; [|unfold handler_outcome; simpl; auto].
  destruct (get_face_properties (location face)) as [fb fa].
  unfold mbind at 1, M_bind.
  destruct (calculate_face_metrics _ fb fa) as [[d r]|e]; [|unfold handler_outcome; simpl; auto].
  unfold mbind, M_bind, get, modify. cbv zeta.
  destruct (bool_decide (mode s = REGISTRATION_SEARCHING)) eqn:Hm; simpl.
  - apply bool_decide_eq_true in Hm.
    destruct (gate _ _ d r); unfold handler_outcome; simpl; [auto|].
    destruct (bool_decide (mode s = REGISTRATION_FROZEN)); unfold handler_outcome; simpl; auto.
  - destruct (bool_decide (mode s = REGISTRATION_FROZEN)); unfold handler_outcome; simpl; auto.
Qed.

Lemma test_app_registration_frame_state detect frame s :
  handler_outcome s frame (TestApp.handle_registration_frame detect frame s).2.
Proof.
  unfold TestApp.handle_registration_frame.
  destruct (detect frame) as [|f fs] eqn:Hd; [unfold handler_outcome; simpl; auto|].
  unfold mbind at 1, M_bind, lift.
  destruct (largest (f :: fs)) as [face|e]; [|unfold handler_outcome; simpl; auto].
  destruct (get_face_properties (location face)) as [fb fa].
  unfold mbind at 1, M_bind.
  destruct (calculate_face_metrics _ fb fa) as [[d r]|e]; [|unfold handler_outcome; simpl; auto].
  unfold mbind, M_bind, get, modify, raise. cbv zeta.
  destruct (bool_decide (mode s = REGISTRATION_SEARCHING)) eqn:Hm; simpl;
    [|unfold handler_outcome; simpl; auto].
  apply bool_decide_eq_true in Hm.
  destruct (gate _ _ d r); unfold handler_outcome; simpl; auto.
Qed.

(** What a whole pass can do to the session state, in either loop. *)
Lemma stream_pass_state detect auth config camera_frame s :
  pass_outcome s (StreamProcessor.generate_pass detect auth config camera_frame s).2.
Proof.
  destruct (decide (mode s = AUTHENTICATING)) as [Hs|Hs].
  { left. by apply stream_pass_authenticating. }
  unfold StreamProcessor.generate_pass, mbind at 1, M_bind at 1, get.
  destruct (StreamProcessor.source_frame s camera_frame) as [frame|]; [|by left].
  unfold StreamProcessor.handle_frame, mbind, M_bind, get.
  pose proof (registration_frame_state detect config frame s) as Hr.
  destruct (mode s); [done | |];
    destruct (StreamProcessor._handle_registration_frame detect config frame s)
      as [[out|e] s']; right; exists frame; exact Hr.
Qed.

Lemma frames_pass_state detect camera_frame s :
  pass_outcome s (TestApp.generate_frames_pass detect camera_frame s).2.
Proof.
  destruct (decide (mode s = AUTHENTICATING)) as [Hs|Hs].
  { left. by apply frames_pass_authenticating. }
  unfold TestApp.generate_frames_pass, mbind at 1, M_bind at 1, get.
  destruct (StreamProcessor.source_frame s camera_frame) as [frame|]; [|by left].
  unfold mbind, M_bind.
  pose proof (test_app_registration_frame_state detect frame s) as Hr.
  destruct (mode s); [done | |];
    destruct (TestApp.handle_registration_frame detect frame s)
      as [[out|e] s']; right; exists frame; exact Hr.
Qed.

(** After a pass on a frozen session. *)
Lemma frozen_after_pass s s' :
  mode s = REGISTRATION_FROZEN ->
  pass_outcome s s' ->
  mode s' = REGISTRATION_FROZEN /\
  (captured_frame s' = captured_frame s \/ captured_frame s' = None).
Proof.
  intros Hs [-> | (frame & [-> | [-> | [Hm _]]])]; simpl; [auto | auto | auto | congruence].
Qed.

(** X14.  Frame passes never end a freeze and never capture during one: after
    a pass in REGISTRATION_FROZEN, whatever the frame and whether or not
    the pass raises, the mode is still REGISTRATION_FROZEN and the captured
    frame is the one held before or none.  This holds for the loop of
    stream_processor.py and for the one of test_app.py. *)
Theorem frozen_pass_keeps_mode
    (detect : Frame -> list FaceData) (auth : AuthenticationService)
    (config : Config) (camera_frame : option Frame) (s : AppState) :
  mode s = REGISTRATION_FROZEN ->
  (let s' := (StreamProcessor.generate_pass detect auth config camera_frame s).2 in
   mode s' = REGISTRATION_FROZEN /\
   (captured_frame s' = captured_frame s \/ captured_frame s' = None)) /\
  (let s' := (TestApp.generate_frames_pass detect camera_frame s).2 in
   mode s' = REGISTRATION_FROZEN /\
   (captured_frame s' = captured_frame s \/ captured_frame s' = None)).
Proof.
  intros Hs. split; intros s'; apply frozen_after_pass; try done; subst s'.
  - apply stream_pass_state.
  - apply frames_pass_state.
Qed.

(** X15.  In AUTHENTICATING a frame pass never changes the session state,
    whatever the camera, the detector and the gallery give and whether or
    not the pass raises; the loop of test_app.py moreover yields the camera
    frame exactly as it came, without detection or drawing. *)
Theorem authenticating_pass_keeps_state
    (detect : Frame -> list FaceData) (auth : AuthenticationService)
    (config : Config) (camera_frame : option Frame) (s : AppState) :
  mode s = AUTHENTICATING ->
  (StreamProcessor.generate_pass detect auth config camera_frame s).2 = s /\
  TestApp.generate_frames_pass detect camera_frame s = (Ok camera_frame, s).
Proof.
  intros Hs. split; [by apply stream_pass_authenticating|].
  unfold TestApp.generate_frames_pass, StreamProcessor.source_frame, mbind, M_bind, get.
  rewrite Hs. by destruct camera_frame.
Qed.

Lemma frames_pass_registration_eq detect camera_frame s frame :
  mode s <> AUTHENTICATING ->
  StreamProcessor.source_frame s camera_frame = Some frame ->
  TestApp.generate_frames_pass detect camera_frame s =
    match TestApp.handle_registration_frame detect frame s with
    | (Ok out, s') => (Ok (Some out), s')
    | (Raise e, s') => (Raise e, s')
    end.
Proof.
  intros Hs Hsrc.
  unfold TestApp.generate_frames_pass, mbind at 1, M_bind at 1, get. rewrite Hsrc.
  unfold mbind, M_bind.
  destruct (mode s); [done | |];
    by destruct (TestApp.handle_registration_frame detect frame s) as [[out|e] s'].
Qed.

(** X16.  In the registration modes the loop of test_app.py never yields an
    annotated frame: on a frame that shows a face the pass raises
    [TypeError] (the text is drawn with four of six arguments), and on a
    frame without a face it yields the frame as it came. *)
Theorem test_app_registration_pass
    (detect : Frame -> list FaceData) (camera_frame : option Frame)
    (s : AppState) (frame : Frame) :
  mode s <> AUTHENTICATING ->
  StreamProcessor.source_frame s camera_frame = Some frame ->
  (detect frame <> [] ->
     (TestApp.generate_frames_pass detect camera_frame s).1 = Raise TypeError) /\
  (detect frame = [] ->
     (TestApp.generate_frames_pass detect camera_frame s).1 = Ok (Some frame)).
Proof.
  intros Hs Hsrc.
  rewrite (frames_pass_registration_eq detect camera_frame s frame Hs Hsrc).
  split.
  - intros Hne. destruct (largest_spec _ Hne) as (face & Hface & _).
    rewrite (test_app_registration_face detect frame face s Hne Hface).
    cbv zeta. by destruct (bool_decide _ && gate _ _ _ _).
  - intros Hd.
    assert (Hh : TestApp.handle_registration_frame detect frame s
                 = (Ok frame, set_captured_frame None s)).
    { unfold TestApp.handle_registration_frame. by rewrite Hd. }
    by rewrite Hh.
Qed.

(** *** What is never written *)

Lemma handler_outcome_last_result s frame s' :
  handler_outcome s frame s' -> last_auth_result s' = last_auth_result s.
Proof. intros [-> | [-> | [_ ->]]]; done. Qed.

Lemma last_auth_result_never_written s :
  reachable s -> last_auth_result s = ∅.
Proof.
  induction 1 as [ | s _ IH | s _ IH | s _ IH | s _ IH
                 | imread extract fresh_id now form_name k _ IH
                 | detect auth config camera_frame s _ IH
                 | detect camera_frame s _ IH ]; try done.
  - rewrite submit_registration_app_state. exact IH.
  - destruct (stream_pass_state detect auth config camera_frame s) as [-> | (frame & H)];
      [done|]. by rewrite (handler_outcome_last_result _ _ _ H).
  - destruct (frames_pass_state detect camera_frame s) as [-> | (frame & H)];
      [done|]. by rewrite (handler_outcome_last_result _ _ _ H).
Qed.

(** X17.  Nothing ever writes [last_auth_result]: in every state reached from
    [AppState()] by commands and frame passes it is still the empty
    dictionary, and so cancel brings the session back to exactly its
    initial state. *)
Theorem cancel_restores_initial_state (s : AppState) :
  reachable s ->
  last_auth_result s = ∅ /\
  (TestApp.cancel_registration s).2 = AppState_init.
Proof.
  intros Hr. pose proof (last_auth_result_never_written s Hr) as Hl.
  split; [done|]. unfold AppState_init, TestApp.cancel_registration, mbind, M_bind,
    modify, set_mode, set_captured_frame. simpl. by rewrite Hl.
Qed.

(** ** The stream of app.py *)

Lemma authenticate_face_returns self face_data :
  length (known_user_ids self) = length (known_encodings self) ->
  exists verdict,
    authenticate_face self face_data
    = Ok [ {| name := verdict; box := location face_data |} ].
Proof.
  intros Hlen. unfold authenticate_face.
  destruct (known_encodings self) as [|e0 es] eqn:Eknown.
  - rewrite matched_name_empty by done. by eexists.
  - destruct (matched_name_nonempty self (encoding face_data)) as (i & d & uid & _ & _ & ->).
    { by rewrite Eknown. }
    { by rewrite Eknown. }
    by eexists.
Qed.

(** X18.  For a frame whose largest face passes the gate, with an
    index-aligned gallery, one pass of [generate_frames] yields the
    "authenticating" frame once and then the frame with the verdict of
    [authenticate_face], once per turn of the hold loop, and nothing else;
    both are drawn on the frame with the guide outline. *)
Theorem app_ready_stream
    (detect : Frame -> list FaceData) (auth : AuthenticationService)
    (turns : nat) (frame : Frame) (out : list Frame) :
  length (known_user_ids auth) = length (known_encodings auth) ->
  detect frame <> [] ->
  exists face verdict,
    largest (detect frame) = Ok face /\
    authenticate_face auth face = Ok [ {| name := verdict; box := location face |} ] /\
    let framed := draw_guide_box frame GUIDE_BOX_RECT GREY in
    let face_box := (get_face_properties (location face)).1 in
    (gate POSITION_THRESHOLD SIZE_THRESHOLD
          (centerDistance GUIDE_BOX_RECT (location face))
          (sizeRatio GUIDE_BOX_RECT (location face)) = true ->
     App.generate_frames_pass detect auth turns (Some frame) out =
       (Ok tt,
        out ++ annotate framed face_box MSG_AUTHENTICATING WHITE
            :: repeat (annotate framed face_box (MSG_RESULT +:+ verdict)
                         (if String.eqb verdict Unknown then RED else GREEN))
                      turns)).
Proof.
  intros Hlen Hne. destruct (largest_spec _ Hne) as (face & Hface & _).
  destruct (authenticate_face_returns auth face Hlen) as (verdict & Hauth).
  exists face, verdict. split; [done|]. split; [done|]. intros framed face_box Hg.
  rewrite (app_pass_face detect auth turns frame out face Hne Hface).
  cbv zeta. rewrite Hg.
  unfold mbind, M_bind, App.yield, modify, lift. rewrite Hauth. simpl.
  rewrite hold_result_appends. by rewrite <- app_assoc.
Qed.

(** ** Drawing the results of a batch image *)




(** ** cleanup_old_frames *)

Lemma insert_by_mtime_perm f l : insert_by_mtime f l ≡ₚ f :: l.
Proof.
  induction l as [|g l IH]; simpl; [done|].
  destruct (mtime f <=? mtime g)%Z; [done|].
  rewrite IH. apply Permutation_swap.
Qed.

Lemma sorted_by_mtime_perm files : sorted_by_mtime files ≡ₚ files.
Proof.
  induction files as [|f files IH]; simpl; [done|].
  by rewrite insert_by_mtime_perm, IH.
Qed.

Lemma insert_by_mtime_sorted f l :
  StronglySorted older l -> StronglySorted older (insert_by_mtime f l).
Proof.
  induction l as [|g l IH]; intros Hs; simpl.
  - repeat constructor.
  - apply StronglySorted_cons in Hs as [Hg Hl].
    destruct (mtime f <=? mtime g)%Z eqn:Hle.
    + apply Z.leb_le in Hle. apply StronglySorted_cons. split.
      * constructor; [done|]. eapply Forall_impl; [exact Hg|].
        intros x Hx. unfold older in *. lia.
      * by apply StronglySorted_cons.
    + apply Z.leb_gt in Hle. apply StronglySorted_cons. split.
      * rewrite insert_by_mtime_perm. constructor; [unfold older; lia | done].
      * by apply IH.
Qed.

Lemma sorted_by_mtime_sorted files : StronglySorted older (sorted_by_mtime files).
Proof.
  induction files as [|f files IH]; simpl; [constructor|].
  by apply insert_by_mtime_sorted.
Qed.

Lemma filter_all {A} (P : A -> Prop) `{!forall x, Decision (P x)} (l : list A) :
  (forall x, x ∈ l -> P x) -> filter P l = l.
Proof.
  induction l as [|x l IH]; intros Hall; [done|].
  rewrite filter_cons_True by (apply Hall; by left).
  f_equal. apply IH. intros y Hy. apply Hall. by right.
Qed.

(** Removing the files one by one removes the entries with their names. *)
Lemma remove_files_filter (to_delete : list File) : forall directory,
  foldl remove_file directory to_delete
  = filter (fun g => file_name g ∉ file_name <$> to_delete) directory.
Proof.
  induction to_delete as [|f to_delete IH]; intros directory; simpl.
  - symmetry. apply filter_all. intros x _ H. by apply elem_of_nil in H.
  - rewrite IH. unfold remove_file. rewrite list_filter_filter.
    apply list_filter_iff. intros g. rewrite not_elem_of_cons. tauto.
Qed.

(** What [cleanup_old_frames] deletes and what it keeps: the listing is
    filtered by name, the deleted files are the first [n] of the files
    sorted by age. *)
Lemma cleanup_old_frames_split directory max_frames :
  exists deleted kept,
    sorted_by_mtime (filter (fun f => is_jpeg f = true) directory) = deleted ++ kept /\
    cleanup_old_frames directory max_frames
      = filter (fun g => file_name g ∉ file_name <$> deleted) directory /\
    length kept
      = Nat.min (length (filter (fun f => is_jpeg f = true) directory))
                (Z.to_nat max_frames).
Proof.
  unfold cleanup_old_frames.
  set (files := sorted_by_mtime (filter (fun f => is_jpeg f = true) directory)).
  assert (Hlen : length files = length (filter (fun f => is_jpeg f = true) directory)).
  { unfold files. by rewrite sorted_by_mtime_perm. }
  destruct (max_frames <? Z.of_nat (length files))%Z eqn:Hmax.
  - apply Z.ltb_lt in Hmax.
    set (n := Z.to_nat (Z.of_nat (length files) - max_frames)).
    exists (take n files), (drop n files). split_and!.
    + by rewrite take_drop.
    + apply remove_files_filter.
    + rewrite length_drop, <- Hlen. unfold n. lia.
  - apply Z.ltb_ge in Hmax. exists [], files. split_and!.
    + done.
    + symmetry. apply filter_all. intros x _ H. by apply elem_of_nil in H.
    + rewrite <- Hlen. lia.
Qed.

Lemma is_jpeg_by_name f g : file_name f = file_name g -> is_jpeg f = is_jpeg g.
Proof. unfold is_jpeg. by intros ->. Qed.

Lemma names_unique (directory : list File) :
  NoDup (file_name <$> directory) ->
  forall x y, x ∈ directory -> y ∈ directory -> file_name x = file_name y -> x = y.
Proof.
  induction directory as [|f directory IH]; intros Hnd x y Hx Hy Hxy.
  { by apply elem_of_nil in Hx. }
  rewrite fmap_cons in Hnd. apply NoDup_cons in Hnd as [Hf Hnd].
  apply elem_of_cons in Hx as [-> | Hx]; apply elem_of_cons in Hy as [-> | Hy].
  - done.
  - exfalso. apply Hf. rewrite Hxy. by apply list_elem_of_fmap_2.
  - exfalso. apply Hf. rewrite <- Hxy. by apply list_elem_of_fmap_2.
  - by apply IH.
Qed.

(** The .jpg/.jpeg files left by the cleanup are the files it kept. *)
Lemma cleanup_old_frames_kept directory deleted kept :
  NoDup (file_name <$> directory) ->
  deleted ++ kept ≡ₚ filter (fun f => is_jpeg f = true) directory ->
  filter (fun f => is_jpeg f = true)
         (filter (fun g => file_name g ∉ file_name <$> deleted) directory)
  ≡ₚ kept.
Proof.
  intros Hnodup Hperm.
  assert (Hin : forall f, f ∈ deleted ++ kept -> f ∈ directory).
  { intros f Hf. rewrite Hperm in Hf. by apply list_elem_of_filter in Hf as [_ ?]. }
  assert (Hnd : NoDup (deleted ++ kept)).
  { rewrite Hperm. apply NoDup_filter. by apply NoDup_fmap_1 in Hnodup. }
  apply NoDup_app in Hnd as (_ & Hdisj & _).
  rewrite list_filter_filter.
  rewrite (list_filter_iff _
             (fun x => (file_name x ∉ file_name <$> deleted) /\ is_jpeg x = true))
    by (intros x; tauto).
  rewrite <- list_filter_filter, <- Hperm, filter_app.
  rewrite (filter_none _ deleted), (filter_all _ kept); [done | |].
  - intros k Hk (d & Hname & Hd)%list_elem_of_fmap.
    assert (k = d) as ->.
    { apply (names_unique directory Hnodup); [| |done]; apply Hin, elem_of_app; auto. }
    by apply (Hdisj d).
  - intros d Hd Hnot. apply Hnot. by apply list_elem_of_fmap_2.
Qed.

(** X20.  [cleanup_old_frames] touches only .jpg/.jpeg files: every other
    entry of the directory stays, in place; nothing is added; and of the
    .jpg/.jpeg files min(count, max_frames) are left (none when max_frames
    is negative, all when there are at most max_frames). *)
Theorem cleanup_old_frames_count (directory : list File) (max_frames : Z) :
  NoDup (file_name <$> directory) ->
  filter (fun f => is_jpeg f <> true) (cleanup_old_frames directory max_frames)
    = filter (fun f => is_jpeg f <> true) directory /\
  (forall f, f ∈ cleanup_old_frames directory max_frames -> f ∈ directory) /\
  length (filter (fun f => is_jpeg f = true) (cleanup_old_frames directory max_frames))
    = Nat.min (length (filter (fun f => is_jpeg f = true) directory))
              (Z.to_nat max_frames).
Proof.
  intros Hnodup.
  destruct (cleanup_old_frames_split directory max_frames)
    as (deleted & kept & Hsplit & -> & Hkept).
  pose proof (sorted_by_mtime_perm (filter (fun f => is_jpeg f = true) directory)) as Hperm.
  rewrite Hsplit in Hperm.
  assert (Hdel : forall d, d ∈ deleted -> is_jpeg d = true).
  { intros d Hd.
    assert (Hd' : d ∈ filter (fun f => is_jpeg f = true) directory)
      by (rewrite <- Hperm; apply elem_of_app; by left).
    by apply list_elem_of_filter in Hd' as [? _]. }
  split_and!.
  - rewrite list_filter_filter.
    apply list_filter_iff. intros g. split; [tauto|]. intros Hg. split; [done|].
    intros (d & Hname & Hd)%list_elem_of_fmap.
    rewrite (is_jpeg_by_name g d Hname) in Hg. by apply Hg, Hdel.
  - intros f Hf. by apply list_elem_of_filter in Hf as [_ ?].
  - rewrite <- Hkept. apply Permutation_length.
    by apply cleanup_old_frames_kept.
Qed.

(** X21.  [cleanup_old_frames] deletes the oldest files: every .jpg/.jpeg file
    it removed was modified no later than every .jpg/.jpeg file it left. *)
Theorem cleanup_old_frames_keeps_newest
    (directory : list File) (max_frames : Z) (gone left_ : File) :
  NoDup (file_name <$> directory) ->
  gone ∈ directory ->
  is_jpeg gone = true ->
  gone ∉ cleanup_old_frames directory max_frames ->
  left_ ∈ cleanup_old_frames directory max_frames ->
  is_jpeg left_ = true ->
  (mtime gone <= mtime left_)%Z.
Proof.
  intros Hnodup Hgone Hjg Hnot Hleft Hjl.
  destruct (cleanup_old_frames_split directory max_frames)
    as (deleted & kept & Hsplit & Hclean & _).
  pose proof (sorted_by_mtime_perm (filter (fun f => is_jpeg f = true) directory)) as Hperm.
  pose proof (sorted_by_mtime_sorted (filter (fun f => is_jpeg f = true) directory)) as Hsorted.
  rewrite Hsplit in Hperm, Hsorted. rewrite Hclean in Hnot, Hleft.
  assert (Hk : left_ ∈ kept).
  { rewrite <- (cleanup_old_frames_kept directory deleted kept Hnodup Hperm).
    by apply list_elem_of_filter. }
  assert (Hd : gone ∈ deleted).
  { destruct (decide (file_name gone ∈ file_name <$> deleted)) as [Hin | Hout].
    - apply list_elem_of_fmap in Hin as (d & Hname & Hd).
      assert (gone = d) as ->; [|done].
      apply (names_unique directory Hnodup); [done | | done].
      assert (Hd' : d ∈ filter (fun f => is_jpeg f = true) directory)
        by (rewrite <- Hperm; apply elem_of_app; by left).
      by apply list_elem_of_filter in Hd' as [_ ?].
    - exfalso. apply Hnot. by apply list_elem_of_filter. }
  exact (StronglySorted_app_1_elem_of _ _ _ _ _ Hsorted Hd Hk).
Qed.

(** ** The further properties at sample inputs *)

Example endswith_examples :
  endswith "frame_1.jpg" ".jpg" = true /\
  endswith "frame_2.jpeg" ".jpg" = false /\
  endswith "jpg" ".jpg" = false /\
  is_jpeg Fixture.middle = true /\
  is_jpeg Fixture.notes = false.
Proof. repeat split. Qed.

Example cleanup_example :
  cleanup_old_frames Fixture.directory 1 = [Fixture.newest; Fixture.notes] /\
  cleanup_old_frames Fixture.directory 2
    = [Fixture.newest; Fixture.notes; Fixture.middle] /\
  cleanup_old_frames Fixture.directory MAX_FRAMES_TO_KEEP = Fixture.directory.
Proof. repeat split. Qed.

Lemma fixture_directory_names : NoDup (file_name <$> Fixture.directory).
Proof.
  simpl.
  repeat (apply NoDup_cons; split;
          [rewrite ?elem_of_cons, ?elem_of_nil; intuition discriminate|]).
  apply NoDup_nil_2.
Qed.

Lemma largest_is_first_maximum_witness :
  exists k face,
    largest (Sample.one_face Sample.frame) = Ok face /\
    Sample.one_face Sample.frame !! k = Some face.
Proof.
  assert (Hne : Sample.one_face Sample.frame <> []) by discriminate.
  destruct (largest_is_first_maximum (Sample.one_face Sample.frame) Hne)
    as (k & face & H1 & H2 & _).
  exists k, face. split; [exact H1 | exact H2].
Defined.

Lemma authenticate_frame_results_witness :
  known_encodings Sample.service <> [] /\
  length (known_user_ids Sample.service) = length (known_encodings Sample.service) /\
  authenticate_frame true Sample.one_face Sample.service Sample.frame
    = Raise KeyError /\
  exists results,
    authenticate_frame false Sample.one_face Sample.service Sample.frame = Ok results /\
    length results = length (Sample.one_face Sample.frame).
Proof.
  assert (Hne : known_encodings Sample.service <> []) by discriminate.
  split; [exact Hne|]. split; [reflexivity|].
  destruct (authenticate_frame_results Sample.one_face Sample.service Sample.frame
              Hne eq_refl) as (Hraise & results & H1 & H2 & _).
  split; [exact Hraise|].
  exists results. split; [exact H1 | exact H2].
Defined.


Lemma init_without_encodings_witness :
  encodings_pickle Fixture.disk = None /\
  authenticate_frame true Sample.one_face (AuthenticationService_init Fixture.disk 0.6)
    Sample.frame = Ok [].
Proof.
  split; [reflexivity|].
  destruct (init_without_encodings true Sample.one_face Fixture.disk 0.6 Sample.face
              Sample.frame eq_refl) as (_ & _ & H).
  exact H.
Defined.

Lemma register_new_user_rejects_witness :
  RegistrationService.register_new_user "u2" "2025-01-01T00:00:00+00:00" "Bob" []
    Fixture.disk = (Raise ValueError, Fixture.disk).
Proof.
  apply (register_new_user_rejects "u2" "2025-01-01T00:00:00+00:00" "Bob" [] Fixture.disk).
  right. reflexivity.
Defined.

Lemma register_new_user_effect_witness :
  exists d',
    RegistrationService.register_new_user "u2" "2025-01-01T00:00:00+00:00" "Bob"
      [Sample.still] Fixture.disk = (Ok "u2", d') /\
    length (metadata_json d') = 2%nat.
Proof.
  assert (Hname : "Bob" <> EmptyString) by discriminate.
  assert (Himages : [Sample.still] <> []) by discriminate.
  destruct (register_new_user_effect "u2" "2025-01-01T00:00:00+00:00" "Bob"
              [Sample.still] Fixture.disk Hname Himages) as (d' & H1 & H2 & _).
  exists d'. split; [exact H1|]. rewrite H2. reflexivity.
Defined.

Lemma build_encodings_nothing_to_save_witness :
  EncodingService.build_encodings_from_dataset Sample.imread Sample.one_encoding
    Fixture.disk
  = (Ok tt, Fixture.disk).
Proof.
  apply (build_encodings_nothing_to_save Sample.imread Sample.one_encoding Fixture.disk).
  intros u dir n path image _ Hdir. simpl in Hdir.
  rewrite lookup_empty in Hdir. discriminate.
Defined.

Lemma load_knowledge_name_map_witness :
  user_id_to_name_map (_load_knowledge Fixture.disk Sample.service) !! "u1"
    = Some "Alice" /\
  user_id_to_name_map (_load_knowledge Fixture.disk Sample.service) !! "u9" = None.
Proof.
  destruct (load_knowledge_name_map Fixture.disk Sample.service) as [Hlast Hnone].
  split.
  - apply (Hlast [] {| user_id := "u1"; user_name := "Alice";
                       registered_at := "2025-01-01T00:00:00+00:00" |} []).
    + reflexivity.
    + intros v Hv. inversion Hv.
  - apply Hnone. intros u Hu. simpl in Hu.
    apply list_elem_of_singleton in Hu. rewrite Hu. simpl. discriminate.
Defined.

Lemma enrolment_reaches_gallery_witness :
  exists d1 d2,
    RegistrationService.register_new_user "u2" "2025-01-01T00:00:00+00:00" "Bob"
      [Sample.still] Fixture.disk = (Ok "u2", d1) /\
    EncodingService.build_encodings_from_dataset Sample.imread Sample.one_encoding d1
      = (Ok tt, d2) /\
    user_id_to_name_map (AuthenticationService_init d2 0.6) !! "u2" = Some "Bob".
Proof.
  assert (Hname : "Bob" <> EmptyString) by discriminate.
  assert (Hread : Sample.imread Sample.still
                  = Some {| pixels := [2; 2; 8]%Z; drawings := [] |}) by reflexivity.
  destruct (enrolment_reaches_gallery Sample.imread Sample.one_encoding "u2"
              "2025-01-01T00:00:00+00:00" "Bob" Sample.still
              {| pixels := [2; 2; 8]%Z; drawings := [] |} [0; 0]%R 0.6 Fixture.disk
              Hname eq_refl Hread eq_refl) as (d1 & d2 & H1 & H2 & _ & _ & _ & H3).
  exists d1, d2. split; [exact H1|]. split; [exact H2 | exact H3].
Defined.

Lemma frozen_pass_stable_witness :
  exists face,
    largest (Sample.one_face Sample.still) = Ok face /\
    StreamProcessor.generate_pass Sample.one_face Sample.service Sample.config
      (Some Sample.frame) Sample.frozen
    = (Ok (Some (draw_face_box Sample.still (location face) MSG_FROZEN GREEN)),
       Sample.frozen).
Proof.
  assert (Hne : Sample.one_face Sample.still <> []) by discriminate.
  exact (frozen_pass_stable Sample.one_face Sample.service Sample.config
           (Some Sample.frame) Sample.frozen Sample.still eq_refl eq_refl Hne
           guide_area_not_zero).
Defined.

Lemma frozen_pass_keeps_mode_witness :
  mode (StreamProcessor.generate_pass Sample.no_face Sample.service Sample.config
          (Some Sample.frame) Sample.frozen).2 = REGISTRATION_FROZEN.
Proof.
  destruct (frozen_pass_keeps_mode Sample.no_face Sample.service Sample.config
              (Some Sample.frame) Sample.frozen eq_refl) as [[H _] _].
  exact H.
Defined.

Lemma authenticating_pass_keeps_state_witness :
  (StreamProcessor.generate_pass Sample.one_face Sample.service Sample.config
     (Some Sample.frame) AppState_init).2 = AppState_init /\
  TestApp.generate_frames_pass Sample.one_face (Some Sample.frame) AppState_init
  = (Ok (Some Sample.frame), AppState_init).
Proof.
  exact (authenticating_pass_keeps_state Sample.one_face Sample.service Sample.config
           (Some Sample.frame) AppState_init eq_refl).
Defined.

Lemma test_app_registration_pass_witness :
  (TestApp.generate_frames_pass Sample.one_face (Some Sample.frame) Sample.searching).1
  = Raise TypeError.
Proof.
  assert (Hs : mode Sample.searching <> AUTHENTICATING) by discriminate.
  assert (Hne : Sample.one_face Sample.frame <> []) by discriminate.
  destruct (test_app_registration_pass Sample.one_face (Some Sample.frame)
              Sample.searching Sample.frame Hs eq_refl) as [H _].
  exact (H Hne).
Defined.

Lemma cancel_restores_initial_state_witness :
  (TestApp.cancel_registration (TestApp.start_registration AppState_init).2).2
  = AppState_init.
Proof.
  destruct (cancel_restores_initial_state (TestApp.start_registration AppState_init).2
              (reach_start _ reach_init)) as [_ H].
  exact H.
Defined.

Lemma zero_area_guide_raises_witness :
  StreamProcessor.handle_frame Sample.one_face Sample.service Fixture.flat_config
    Sample.frame Sample.searching = (Raise ZeroDivisionError, Sample.searching).
Proof.
  assert (Hne : Sample.one_face Sample.frame <> []) by discriminate.
  exact (zero_area_guide_raises Sample.one_face Sample.service Fixture.flat_config
           Sample.frame Sample.searching eq_refl Hne).
Defined.

Lemma face_filling_guide_is_ready_witness :
  gate POSITION_THRESHOLD SIZE_THRESHOLD
       (centerDistance (465, 135, 350, 450)%Z (135, 815, 585, 465)%Z)
       (sizeRatio (465, 135, 350, 450)%Z (135, 815, 585, 465)%Z) = true.
Proof.
  assert (Harea : get_box_area (465, 135, 350, 450)%Z <> 0%Z) by (vm_compute; discriminate).
  assert (HpT : (0 <= POSITION_THRESHOLD)%R) by (unfold POSITION_THRESHOLD; lra).
  assert (HsT : (SIZE_THRESHOLD <= 1)%R) by (unfold SIZE_THRESHOLD; lra).
  destruct (face_filling_guide_is_ready 465 135 350 450 POSITION_THRESHOLD SIZE_THRESHOLD
              Harea HpT HsT) as (_ & _ & H).
  exact H.
Defined.

Lemma app_ready_stream_witness :
  exists face verdict,
    largest (Sample.one_face Sample.frame) = Ok face /\
    authenticate_face Sample.service face
    = Ok [ {| name := verdict; box := location face |} ].
Proof.
  assert (Hne : Sample.one_face Sample.frame <> []) by discriminate.
  destruct (app_ready_stream Sample.one_face Sample.service 3 Sample.frame []
              eq_refl Hne) as (face & verdict & H1 & H2 & _).
  exists face, verdict. split; [exact H1 | exact H2].
Defined.

Lemma cleanup_old_frames_count_witness :
  length (filter (fun f => is_jpeg f = true)
                 (cleanup_old_frames Fixture.directory 2))
  = Nat.min (length (filter (fun f => is_jpeg f = true) Fixture.directory))
            (Z.to_nat 2).
Proof.
  destruct (cleanup_old_frames_count Fixture.directory 2 fixture_directory_names)
    as (_ & _ & H).
  exact H.
Defined.

Lemma cleanup_old_frames_keeps_newest_witness :
  (mtime Fixture.oldest <= mtime Fixture.middle)%Z.
Proof.
  apply (cleanup_old_frames_keeps_newest Fixture.directory 2 Fixture.oldest Fixture.middle
           fixture_directory_names).
  - unfold Fixture.directory. rewrite !elem_of_cons. auto.
  - reflexivity.
  - change (cleanup_old_frames Fixture.directory 2)
      with [Fixture.newest; Fixture.notes; Fixture.middle].
    rewrite !not_elem_of_cons. repeat split; try discriminate. apply not_elem_of_nil.
  - change (cleanup_old_frames Fixture.directory 2)
      with [Fixture.newest; Fixture.notes; Fixture.middle].
    rewrite !elem_of_cons. auto.
  - reflexivity.
Defined.
